(** * Frequency tables with formatted percentages

    A shallow embedding of [src/plots/plot_counts.py]: the percentage
    formatter [counts_to_percentages] and the frequency table builder
    [calc_counts_and_percentages], together with the pandas operations
    the two functions call.

    The formatter is modelled twice.  In [Binary64] the numbers are
    those of numpy: int64 counts with their wrap-around, and doubles,
    every division and multiplication rounded to the nearest double.
    The rules of the formatter are proved there.  Outside of that
    module numbers are exact rationals ([Q]): the order and the shape of
    the table, the errors and the labels that do not depend on rounding
    are proved over them.  The special values that numpy produces on a
    division by zero (infinities and NaN) are kept in both, so that a
    series whose sum is zero can be traced as well.  A column of a table
    holds texts or numbers, with missing cells; the categorical dtype is
    not modelled.

    The plotting functions [ax_add_value_labels_ab],
    [plot_counts_with_labels] and [plot_crosstab_as_barplot] follow, over
    a record of the state of a matplotlib Axes.  The bar plot of pandas
    and [str.capitalize] are parameters of the functions that call
    them. *)

From Stdlib Require Import ZArith QArith Qround Qabs Qpower Lqa Lia.
From Stdlib Require Import List Bool Ascii String DecimalString DecimalN.
From Stdlib Require Import Sorting.Sorted Permutation.
Import ListNotations.

Local Open Scope string_scope.
Local Open Scope Q_scope.

(** ** Numbers *)

Definition Qltb (a b : Q) : bool := negb (Qle_bool b a).

(** The result of a numpy float operation: a number, an infinity or NaN. *)
Module Float.

Inductive t : Type :=
| Finite (q : Q)
| PosInf
| NegInf
| NaN.

Definition sgn (x : t) : Z :=
  match x with
  | Finite q => Z.sgn (Qnum q)
  | PosInf => 1
  | NegInf => -1
  | NaN => 0
  end.

Definition of_sgn (s : Z) : t :=
  match s with
  | Z0 => NaN
  | Zpos _ => PosInf
  | Zneg _ => NegInf
  end.

(** [a / b] of two numbers; numpy does not raise on a zero divisor:
    it yields [inf], [-inf] or [nan]. *)
Definition truediv (a b : Q) : t :=
  if Qeq_bool b 0 then of_sgn (Z.sgn (Qnum a)) else Finite (a / b).

Definition mul (x y : t) : t :=
  match x, y with
  | NaN, _ | _, NaN => NaN
  | Finite a, Finite b => Finite (a * b)
  | _, _ => of_sgn (sgn x * sgn y)
  end.

(** [x == y]: NaN is equal to nothing. *)
Definition eqb (x y : t) : bool :=
  match x, y with
  | Finite a, Finite b => Qeq_bool a b
  | PosInf, PosInf | NegInf, NegInf => true
  | _, _ => false
  end.

(** [x < y]: every comparison with NaN is false. *)
Definition ltb (x y : t) : bool :=
  match x, y with
  | NaN, _ | _, NaN => false
  | Finite a, Finite b => Qltb a b
  | NegInf, (Finite _ | PosInf) => true
  | Finite _, PosInf => true
  | _, _ => false
  end.

End Float.

Coercion Float.Finite : Q >-> Float.t.

(** ** Python's [format(x, ".1f")] *)

(** Rounding to the nearest integer, a tie going to the even neighbour:
    Python formats the exact value of the number it is given. *)
Definition round_half_even (r : Q) : Z :=
  let f := Qfloor r in
  match Qcompare (r - inject_Z f) (1 # 2) with
  | Lt => f
  | Gt => (f + 1)%Z
  | Eq => if Z.even f then f else (f + 1)%Z
  end.

Definition decimal (n : Z) : string :=
  NilEmpty.string_of_uint (N.to_uint (Z.to_N n)).

Definition format_1f (q : Q) : string :=
  let tenths := round_half_even (Qabs q * 10) in
  (if Qltb q 0 then "-" else "")
    ++ decimal (tenths / 10) ++ "." ++ decimal (tenths mod 10).

Definition float_format_1f (x : Float.t) : string :=
  match x with
  | Float.Finite q => format_1f q
  | Float.PosInf => "inf"
  | Float.NegInf => "-inf"
  | Float.NaN => "nan"
  end.

(** ** Series *)

(** An index label: a text or a number. *)
Inductive key : Type :=
| KStr (s : string)
| KNum (q : Q).

(** A pandas Series: an optional name and the values in order, each
    with its index label. *)
Record Series (A : Type) : Type := mkSeries {
  name : option string;
  items : list (key * A)
}.
Arguments mkSeries {A} name items.
Arguments name {A} s.
Arguments items {A} s.

Definition index {A} (s : Series A) : list key := map fst (items s).
Definition values {A} (s : Series A) : list A := map snd (items s).

(** [pd.Series(data, index=idx)] *)
Definition new_Series {A} (data : list A) (idx : list key) : Series A :=
  mkSeries None (combine idx data).

(** [s.rename(n)] *)
Definition rename {A} (s : Series A) (n : string) : Series A :=
  mkSeries (Some n) (items s).

(** [s.replace(old, new)] on a series of strings *)
Definition replace_value (old new v : string) : string :=
  if String.eqb v old then new else v.

Definition replace (s : Series string) (old new : string) : Series string :=
  mkSeries (name s) (map (fun kv => (fst kv, replace_value old new (snd kv))) (items s)).

Definition Qsum (l : list Q) : Q := fold_right Qplus 0 l.

(** [x.sum()] *)
Definition Series_sum (x : Series Q) : Q := Qsum (values x).

(** ** [counts_to_percentages] *)

(** [x / x_sum * 100], value by value. *)
Definition raw_percentages (x : Series Q) : list Float.t :=
  let x_sum := Series_sum x in
  map (fun c => Float.mul (Float.truediv c x_sum) 100) (values x).

(** The element of the list comprehension: the label of one raw
    percentage [i]. *)
Definition percentage_label (i : Float.t) : string :=
  if Float.eqb i 0 then "0%"
  else if Float.ltb i (1 # 10) then "<0.1%"
  else if Float.ltb (999 # 10) i && Float.ltb i 100 then ">99.9%"
  else float_format_1f i ++ "%".

Definition counts_to_percentages (x : Series Q) (name : string) : Series string :=
  rename
    (replace
       (new_Series (map percentage_label (raw_percentages x)) (index x))
       "0.0%" "<0.1%")
    name.

(** ** The formatter in binary64 *)

(** numpy computes with 64-bit numbers: the counts of a series are
    int64 or float64, and [x / x_sum * 100] is rounded to the nearest
    double after the division and again after the multiplication.  The
    definitions of this module follow [counts_to_percentages] with these
    numbers.  A double is the rational it is equal to; the sign of a
    zero is not kept (it matters to a zero divisor only). *)
Module Binary64.

(** [floor (log2 q)] of a positive [q]. *)
Definition ilog2 (q : Q) : Z :=
  let k := (Z.log2 (Qnum q) - Z.log2 (Zpos (Qden q)))%Z in
  if Qltb q (2 ^ k) then (k - 1)%Z else k.

(** The double nearest to [q], a tie going to the even significand: 53
    bits, the least exponent -1074; a number that rounds to 2^1024 or
    more gives an infinity. *)
Definition round64 (q : Q) : Float.t :=
  let a := Qabs (Qred q) in
  if Qeq_bool a 0 then Float.Finite 0
  else
    let e := Z.max (ilog2 a - 52) (-1074) in
    let m := round_half_even (a / 2 ^ e) in
    let v := Qred (inject_Z m * 2 ^ e) in
    if Qle_bool (2 ^ 1024) v
    then (if Qltb q 0 then Float.NegInf else Float.PosInf)
    else Float.Finite (if Qltb q 0 then - v else v).

(** The float literals of the source. *)
Definition lit_0_1 : Float.t := round64 (1 # 10).
Definition lit_99_9 : Float.t := round64 (999 # 10).

(** The wrap-around of int64 arithmetic. *)
Definition wrap64 (z : Z) : Z := ((z + 2 ^ 63) mod 2 ^ 64 - 2 ^ 63)%Z.

(** An int64 as a float64. *)
Definition of_int (z : Z) : Float.t := round64 (inject_Z z).

Definition add (x y : Float.t) : Float.t :=
  match x, y with
  | Float.NaN, _ | _, Float.NaN => Float.NaN
  | Float.Finite a, Float.Finite b => round64 (a + b)
  | Float.PosInf, Float.NegInf | Float.NegInf, Float.PosInf => Float.NaN
  | Float.PosInf, _ | _, Float.PosInf => Float.PosInf
  | Float.NegInf, _ | _, Float.NegInf => Float.NegInf
  end.

(** [x / y]: no error on a zero divisor, as in [Float.truediv]. *)
Definition truediv (x y : Float.t) : Float.t :=
  match x, y with
  | Float.NaN, _ | _, Float.NaN => Float.NaN
  | Float.Finite a, Float.Finite b =>
      if Qeq_bool b 0 then Float.truediv a b else round64 (a / b)
  | Float.Finite _, _ => Float.Finite 0
  | _, Float.Finite b => Float.of_sgn (Float.sgn x * (if Qltb b 0 then -1 else 1))
  | _, _ => Float.NaN
  end.

Definition mul (x y : Float.t) : Float.t :=
  match x, y with
  | Float.Finite a, Float.Finite b => round64 (a * b)
  | _, _ => Float.mul x y
  end.

(** A series of numbers: its dtype is int64 or float64. *)
Inductive NumSeries : Type :=
| Int64 (name : option string) (items : list (key * Z))
| Float64 (name : option string) (items : list (key * Float.t)).

Definition index (x : NumSeries) : list key :=
  match x with
  | Int64 _ items => map fst items
  | Float64 _ items => map fst items
  end.

(** The values as the division takes them: an int64 is converted. *)
Definition numbers (x : NumSeries) : list Float.t :=
  match x with
  | Int64 _ items => map (fun kv => of_int (snd kv)) items
  | Float64 _ items => map snd items
  end.

Section Sum.

(** The sum of an array of doubles is taken as it is: numpy adds in an
    order of its own, and the rounding depends on the order. *)
Variable float_sum : list Float.t -> Float.t.

(** [x.sum()] *)
Definition Series_sum (x : NumSeries) : Float.t :=
  match x with
  | Int64 _ items => of_int (wrap64 (fold_left Z.add (map snd items) 0%Z))
  | Float64 _ items => float_sum (map snd items)
  end.

(** [x / x_sum * 100] *)
Definition raw_percentages (x : NumSeries) : list Float.t :=
  let x_sum := Series_sum x in
  map (fun c => mul (truediv c x_sum) 100) (numbers x).

Definition percentage_label (i : Float.t) : string :=
  if Float.eqb i 0 then "0%"
  else if Float.ltb i lit_0_1 then "<0.1%"
  else if Float.ltb lit_99_9 i && Float.ltb i 100 then ">99.9%"
  else float_format_1f i ++ "%".

Definition counts_to_percentages (x : NumSeries) (name : string) : Series string :=
  rename
    (replace
       (new_Series (map percentage_label (raw_percentages x)) (index x))
       "0.0%" "<0.1%")
    name.

End Sum.

(** A sum for the examples: one addition after the other. *)
Definition sum_in_order (l : list Float.t) : Float.t :=
  fold_left add l (Float.Finite 0).




End Binary64.

(** The formatting rules in the words of the specification, for one
    percentage [p] and its label [s].  The bounds 0.1 and 99.9 are the
    doubles the two literals denote. *)
Definition double_0_1 : Q := 3602879701896397 # 36028797018963968.




(** ** Tables *)

Definition key_eqb (a b : key) : bool :=
  match a, b with
  | KStr s, KStr t => String.eqb s t
  | KNum p, KNum q => Z.eqb (Qnum p) (Qnum q) && Pos.eqb (Qden p) (Qden q)
  | _, _ => false
  end.

(** The order pandas sorts labels by: texts by code point, numbers by
    value.  A column holds one kind only, so the mixed cases never
    meet; they are ordered for totality. *)
Definition key_leb (a b : key) : bool :=
  match a, b with
  | KStr s, KStr t => String.leb s t
  | KNum p, KNum q => Qle_bool p q
  | KNum _, KStr _ => true
  | KStr _, KNum _ => false
  end.

(** A column of a DataFrame: texts or numbers, [None] for a missing
    cell ([None] or [NaN] in pandas). *)
Inductive column : Type :=
| StrColumn (cells : list (option string))
| NumColumn (cells : list (option Q)).

(** A DataFrame: the columns by name, in order. *)
Definition DataFrame : Type := list (string * column).

Definition column_length (c : column) : nat :=
  match c with
  | StrColumn cells => List.length cells
  | NumColumn cells => List.length cells
  end.

Inductive exn : Type :=
| KeyError (name : string)
| TypeError
| ValueError.

Inductive result (A : Type) : Type :=
| Ok (a : A)
| Raise (e : exn).
Arguments Ok {A} a.
Arguments Raise {A} e.

Definition bind {A B} (r : result A) (f : A -> result B) : result B :=
  match r with
  | Ok a => f a
  | Raise e => Raise e
  end.

Notation "x <- r ;; k" := (bind r (fun x => k))
  (at level 61, r at next level, right associativity).

Fixpoint lookup (data : DataFrame) (col : string) : option column :=
  match data with
  | [] => None
  | (n, c) :: rest => if String.eqb n col then Some c else lookup rest col
  end.

(** [data[col]] *)
Definition getitem (data : DataFrame) (col : string) : result column :=
  match lookup data col with
  | Some c => Ok c
  | None => Raise (KeyError col)
  end.

(** The cells of a column as labels.  Numbers are reduced, so that equal
    numbers are the same label. *)
Definition labels (c : column) : list (option key) :=
  match c with
  | StrColumn cells => map (option_map KStr) cells
  | NumColumn cells => map (option_map (fun q => KNum (Qred q))) cells
  end.

Fixpoint dropna {A} (l : list (option A)) : list A :=
  match l with
  | [] => []
  | Some a :: l' => a :: dropna l'
  | None :: l' => dropna l'
  end.

(** The distinct labels, in the order of their first appearance. *)
Fixpoint unique (l : list key) : list key :=
  match l with
  | [] => []
  | k :: l' => k :: filter (fun k' => negb (key_eqb k k')) (unique l')
  end.

Definition occurrences (k : key) (l : list key) : nat :=
  List.length (filter (key_eqb k) l).

(** Stable insertion sort: [x] goes in front of the first [y] with
    [before x y]. *)
Fixpoint insert_by {A} (before : A -> A -> bool) (x : A) (l : list A) : list A :=
  match l with
  | [] => [x]
  | y :: l' => if before x y then x :: l else y :: insert_by before x l'
  end.

Definition sort_by {A} (before : A -> A -> bool) (l : list A) : list A :=
  fold_right (insert_by before) [] l.

(** [s.value_counts(sort=sort)]: missing cells are dropped
    ([dropna=True]); the labels come in the order of their first
    appearance and, with [sort], by count descending, ties in that
    order. *)
Definition value_counts (c : column) (sort : bool) : Series Q :=
  let present := dropna (labels c) in
  let counts :=
    map (fun k => (k, inject_Z (Z.of_nat (occurrences k present)))) (unique present) in
  mkSeries None
           (if sort
            then sort_by (fun a b => Qle_bool (snd b) (snd a)) counts
            else counts).

(** [s.sort_index()] *)
Definition sort_index {A} (s : Series A) : Series A :=
  mkSeries (name s) (sort_by (fun a b => key_leb (fst a) (fst b)) (items s)).

(** [data.groupby(col)] and [data.groupby(col)[col']] *)
Record DataFrameGroupBy : Type := mkDataFrameGroupBy {
  by_labels : list (option key);
  grouped : DataFrame
}.

Record SeriesGroupBy : Type := mkSeriesGroupBy {
  sby_labels : list (option key);
  sby_name : string;
  selected : column
}.

Definition groupby (data : DataFrame) (col : string) : result DataFrameGroupBy :=
  c <- getitem data col ;;
  Ok (mkDataFrameGroupBy (labels c) data).

Definition groupby_getitem (g : DataFrameGroupBy) (col : string) : result SeriesGroupBy :=
  c <- getitem (grouped g) col ;;
  Ok (mkSeriesGroupBy (by_labels g) col c).

(** The sum of the weights of the rows labelled [k]; a missing weight
    is skipped. *)
Definition group_total (k : key) (rows : list (option key * option Q)) : Q :=
  Qsum (flat_map (fun r =>
                    match r with
                    | (Some k', Some w) => if key_eqb k k' then [w] else []
                    | _ => []
                    end) rows).

Definition is_some {A} (o : option A) : bool :=
  match o with Some _ => true | None => false end.

(** [g.sum()]: one entry per label, the labels ascending ([sort=True]),
    rows with a missing label dropped ([dropna=True]).  The sums of a
    column of texts are no numbers, and the division in
    [counts_to_percentages] then raises TypeError: the model raises it
    here, as soon as there is a group; with no group the result is
    empty. *)
Definition groupby_sum (g : SeriesGroupBy) : result (Series Q) :=
  let groups := sort_by key_leb (unique (dropna (sby_labels g))) in
  match selected g with
  | NumColumn ws =>
      Ok (mkSeries (Some (sby_name g))
                   (map (fun k => (k, group_total k (combine (sby_labels g) ws))) groups))
  | StrColumn ts =>
      match groups with
      | [] => Ok (mkSeries (Some (sby_name g)) [])
      | _ :: _ => Raise TypeError
      end
  end.

(** The frame [pd.concat([a, b], axis=1)] builds from two series that
    carry the same index: the rows pair up by position. *)
Record Frame : Type := mkFrame {
  axis_name : option string;
  column_names : string * string;
  body : list (key * (Q * string))
}.

Definition column_label {A} (s : Series A) : string :=
  match name s with
  | Some n => n
  | None => "0"
  end.

Definition concat_axis1 (a : Series Q) (b : Series string) : Frame :=
  mkFrame None (column_label a, column_label b)
          (combine (index a) (combine (values a) (values b))).

(** [f.rename_axis(n)] *)
Definition rename_axis (f : Frame) (n : string) : Frame :=
  mkFrame (Some n) (column_names f) (body f).

(** The frequency table: three columns, one row per label. *)
Record FrequencyTable : Type := mkFrequencyTable {
  columns : list string;
  rows : list (key * Q * string)
}.

Definition row_label (r : key * Q * string) : key := fst (fst r).
Definition row_count (r : key * Q * string) : Q := snd (fst r).
Definition row_percent (r : key * Q * string) : string := snd r.

(** [f.reset_index()]: the index becomes the first column; pandas
    refuses to insert a column whose name is already there. *)
Definition reset_index (f : Frame) : result FrequencyTable :=
  let n := match axis_name f with Some n => n | None => "index" end in
  let '(c1, c2) := column_names f in
  if String.eqb n c1 || String.eqb n c2 then Raise ValueError
  else Ok (mkFrequencyTable [n; c1; c2]
                            (map (fun r => (fst r, fst (snd r), snd (snd r))) (body f))).

(** ** [calc_counts_and_percentages] *)

(** The [sort] argument: a bool or a string. *)
Inductive sort_arg : Type :=
| SortBool (b : bool)
| SortStr (s : string).

(** [sort == True] *)
Definition eq_True (sort : sort_arg) : bool :=
  match sort with
  | SortBool b => b
  | SortStr _ => false
  end.

(** [sort == s] for a string [s] *)
Definition eq_str (sort : sort_arg) (s : string) : bool :=
  match sort with
  | SortBool _ => false
  | SortStr t => String.eqb t s
  end.

Definition calc_counts_and_percentages
  (group : string) (data : DataFrame) (sort : sort_arg) (weight : option string)
  (n_label perc_label : string) : result FrequencyTable :=
  let vsort := eq_True sort in
  counts <-
    match weight with
    | None =>
        c <- getitem data group ;;
        let counts := value_counts c vsort in
        Ok (if eq_str sort "index" then sort_index counts else counts)
    | Some weight =>
        g <- groupby data group ;;
        w <- groupby_getitem g weight ;;
        groupby_sum w
    end ;;
  let percent := counts_to_percentages counts "percent" in
  reset_index
    (rename_axis (concat_axis1 (rename counts n_label) (rename percent perc_label))
                 group).

(** ** Derived notions used in the statements *)

(** The label [counts_to_percentages] gives to a count [c] in a series
    whose sum is [total]. *)
Definition label_of_count (total c : Q) : string :=
  replace_value "0.0%" "<0.1%"
    (percentage_label (Float.mul (Float.truediv c total) 100)).


(** The rows of the frequency table built from a series of counts. *)
Definition table_rows (counts : Series Q) : list (key * Q * string) :=
  map (fun kc => (fst kc, snd kc, label_of_count (Series_sum counts) (snd kc)))
      (items counts).

(** Two rows in descending order of count, in ascending order of label. *)
Definition count_descending (r1 r2 : key * Q * string) : Prop :=
  row_count r2 <= row_count r1.

Definition label_ascending (r1 r2 : key * Q * string) : Prop :=
  key_leb (row_label r1) (row_label r2) = true.

(** A table without rows: every column is empty. *)
Definition zero_rows (data : DataFrame) : Prop :=
  Forall (fun nc => column_length (snd nc) = 0%nat) data.

(** ** Sample inputs *)

(** [pd.Series(l)]: the index is 0, 1, 2, ... *)
Definition ser (l : list Q) : Series Q :=
  new_Series l (map (fun n => KNum (inject_Z (Z.of_nat n))) (seq 0 (List.length l))).

Definition abb_table : DataFrame :=
  [("g", StrColumn [Some "a"; Some "a"; Some "b"; Some "b"; Some "b"]);
   ("w", NumColumn [Some 5; Some 1; Some 1; None; Some 1])].

Definition bab_table : DataFrame :=
  [("g", StrColumn [Some "b"; Some "a"; Some "b"]);
   ("w", NumColumn [Some 3; Some 1; Some 2])].

Definition empty_table : DataFrame :=
  [("g", StrColumn []); ("w", NumColumn [])].

(** A series of int64 counts, with the index 0, 1, 2, ... *)
Definition int_series (l : list Z) : Binary64.NumSeries :=
  Binary64.Int64 None (map (fun iz => (KNum (inject_Z (Z.of_nat (fst iz))), snd iz))
                           (combine (seq 0 (List.length l)) l)).

(** ** Bar charts: the matplotlib objects *)

(** What Python raises in the plotting functions: an exception of the
    table code, or IndexError. *)
Inductive pyexn : Type :=
| Exn (e : exn)
| IndexError.

Inductive outcome (A : Type) : Type :=
| Return (a : A)
| Throw (e : pyexn).
Arguments Return {A} a.
Arguments Throw {A} e.

Definition and_then {A B} (o : outcome A) (f : A -> outcome B) : outcome B :=
  match o with
  | Return a => f a
  | Throw e => Throw e
  end.

Notation "x <~ o ;; k" := (and_then o (fun x => k))
  (at level 61, o at next level, right associativity).

Definition lift {A} (r : result A) : outcome A :=
  match r with
  | Ok a => Return a
  | Raise e => Throw (Exn e)
  end.

(** A bar: [rect.get_x()], [rect.get_width()], [rect.get_height()]. *)
Record Rectangle : Type := mkRectangle {
  get_x : Q;
  get_width : Q;
  get_height : Q
}.

(** A value handed over as a label: a text, a number or a missing cell. *)
Inductive pyvalue : Type :=
| PStr (s : string)
| PNum (q : Q)
| PMissing.

(** The arguments of one call of [ax.annotate]. *)
Record Annotation : Type := mkAnnotation {
  ann_text : pyvalue;
  ann_xy : Q * Q;
  ann_xytext : Q * Q;
  ann_textcoords : string;
  ann_ha : string;
  ann_va : string;
  ann_fontsize : Q;
  ann_fontweight : string;
  ann_rotation : option Q
}.

(** The state of an Axes the plotting functions read and write. *)
Record Axes : Type := mkAxes {
  patches : list Rectangle;
  texts : list Annotation;
  ax_title : option (string * Q);
  ax_xlabel : option string;
  ax_ylabel : option string;
  ax_ylim : option (Q * Q)
}.

(** [ax.annotate(...)] adds the annotation to the texts of the axes. *)
Definition annotate (ax : Axes) (a : Annotation) : Axes :=
  mkAxes (patches ax) (texts ax ++ [a]) (ax_title ax) (ax_xlabel ax) (ax_ylabel ax)
         (ax_ylim ax).

(** [ax.set_title(t, fontsize=s)], [ax.set_xlabel(l)], [ax.set_ylabel(l)] *)
Definition set_title (ax : Axes) (t : string) (fontsize : Q) : Axes :=
  mkAxes (patches ax) (texts ax) (Some (t, fontsize)) (ax_xlabel ax) (ax_ylabel ax)
         (ax_ylim ax).

Definition set_xlabel (ax : Axes) (l : string) : Axes :=
  mkAxes (patches ax) (texts ax) (ax_title ax) (Some l) (ax_ylabel ax) (ax_ylim ax).

Definition set_ylabel (ax : Axes) (l : string) : Axes :=
  mkAxes (patches ax) (texts ax) (ax_title ax) (ax_xlabel ax) (Some l) (ax_ylim ax).

(** [ax.set_ylim(bottom, top)]: matplotlib refuses a limit that is NaN
    or infinite with ValueError. *)
Definition set_ylim (ax : Axes) (bottom : Q) (top : Float.t) : outcome Axes :=
  match top with
  | Float.Finite t =>
      Return (mkAxes (patches ax) (texts ax) (ax_title ax) (ax_xlabel ax) (ax_ylabel ax)
                     (Some (bottom, t)))
  | _ => Throw (Exn ValueError)
  end.

(** ** [ax_add_value_labels_ab] *)

(** The body of the loop for one pair [(rect, label)] of the zip.
    [rotation] stands for the keyword arguments passed on to
    [ax.annotate]. *)
Definition add_value_label (labels : option (list pyvalue)) (spacing size : Q)
  (weight : string) (rotation : option Q) (ax : Axes) (pair : Rectangle * pyvalue) : Axes :=
  let '(rect, label) := pair in
  let y_value := get_height rect in
  let x_value := get_x rect + get_width rect / 2 in
  let space := spacing in
  let va := "bottom" in
  let '(space, va) := if Qltb y_value 0 then (space * -(1), "top") else (space, va) in
  let label := match labels with
               | None => PStr (format_1f y_value)
               | Some _ => label
               end in
  annotate ax (mkAnnotation label (x_value, y_value) (0, space) "offset points"
                            "center" va size weight rotation).

(** [zip(ax.patches, labels)] raises TypeError when [labels] is None. *)
Definition ax_add_value_labels_ab (ax : Axes) (labels : option (list pyvalue))
  (spacing size : Q) (weight : string) (rotation : option Q) : outcome Axes :=
  match labels with
  | None => Throw (Exn TypeError)
  | Some ls =>
      Return (fold_left (add_value_label labels spacing size weight rotation)
                        (combine (patches ax) ls) ax)
  end.

(** ** [plot_counts_with_labels] *)

(** The cells of a column as Python values, in row order. *)
Definition cells_of (c : column) : list pyvalue :=
  match c with
  | StrColumn cells => map (fun o => match o with Some s => PStr s | None => PMissing end) cells
  | NumColumn cells => map (fun o => match o with Some q => PNum q | None => PMissing end) cells
  end.

Definition Qmax_list (l : list Q) : Float.t :=
  match l with
  | [] => Float.NaN
  | q :: l' => Float.Finite (fold_left (fun m v => if Qltb m v then v else m) l' q)
  end.

(** [counts[y].max() * 1.15]: missing cells are skipped, the maximum of
    nothing is NaN, and a text cannot be multiplied by 1.15. *)
Definition max_times (c : column) (k : Q) : outcome Float.t :=
  match c with
  | NumColumn cells => Return (Float.mul (Qmax_list (dropna cells)) k)
  | StrColumn cells =>
      match dropna cells with
      | [] => Return (Float.mul Float.NaN k)
      | _ => Throw (Exn TypeError)
      end
  end.

(** [counts.columns[0]] *)
Definition first_column (counts : DataFrame) : outcome string :=
  match counts with
  | [] => Throw IndexError
  | (n, _) :: _ => Return n
  end.

Section PlotCounts.

(** [str.capitalize] and the bar plot of pandas,
    [counts.plot.bar(x=x, y=y, legend=legend, ax=ax, ec=ec)], are taken
    as they are. *)
Variable capitalize : string -> string.
Variable plot_bar :
  DataFrame -> string -> string -> bool -> option Axes -> string -> outcome Axes.

Definition plot_counts_with_labels
  (counts : DataFrame) (title : string) (x : option string) (y : string)
  (xlabel : option string) (ylabel : string) (label : string) (label_rotation : Q)
  (title_fontsize : Q) (legend : bool) (ec : string) (y_lim_max : option Q)
  (ax : option Axes) : outcome Axes :=
  x <~ match x with
       | None => first_column counts
       | Some x => Return x
       end ;;
  let xlabel := match xlabel with
                | None => capitalize x
                | Some xlabel => xlabel
                end in
  y_lim_max <~ match y_lim_max with
               | None => c <~ lift (getitem counts y) ;; max_times c (115 # 100)
               | Some m => Return (Float.Finite m)
               end ;;
  ax <~ plot_bar counts x y legend ax ec ;;
  let ax := set_title ax title title_fontsize in
  let ax := set_xlabel ax xlabel in
  let ax := set_ylabel ax ylabel in
  labels <~ lift (getitem counts label) ;;
  ax <~ ax_add_value_labels_ab ax (Some (cells_of labels)) 2 9 "bold"
        (Some label_rotation) ;;
  set_ylim ax 0 y_lim_max.

End PlotCounts.

(** A frequency table as the DataFrame it is in pandas.  A table of the
    builder holds one kind of label. *)
Definition label_column (ks : list key) : column :=
  if forallb (fun k => match k with KNum _ => true | KStr _ => false end) ks
  then NumColumn (map (fun k => match k with KNum q => Some q | KStr _ => None end) ks)
  else StrColumn (map (fun k => match k with KStr s => Some s | KNum _ => None end) ks).

Definition to_DataFrame (ft : FrequencyTable) : DataFrame :=
  combine (columns ft)
          [label_column (map row_label (rows ft));
           NumColumn (map (fun r => Some (row_count r)) (rows ft));
           StrColumn (map (fun r => Some (row_percent r)) (rows ft))].

(** ** [plot_crosstab_as_barplot] *)

(** A table with an index: the DataFrame [pd.crosstab] returns, and the
    [data] of the caller when it is used as the cross-tabulation. *)
Record CrossTab : Type := mkCrossTab {
  ct_index : list key;
  ct_columns : list (key * column)
}.

(** The pairs of labels of the rows in which both cells are present. *)
Definition pairs_of (a b : column) : list (key * key) :=
  flat_map (fun p => match p with
                     | (Some r, Some c) => [(r, c)]
                     | _ => []
                     end) (combine (labels a) (labels b)).

Definition pair_count (r c : key) (ps : list (key * key)) : nat :=
  List.length (filter (fun p => key_eqb r (fst p) && key_eqb c (snd p)) ps).

(** [pd.crosstab(a, b)]: the number of rows for each pair of a value of
    [a] and a value of [b]; the values of [a] are the index and those of
    [b] the columns, both ascending; rows with a missing cell are left
    out. *)
Definition crosstab (a b : column) : CrossTab :=
  let ps := pairs_of a b in
  let idx := sort_by key_leb (unique (map fst ps)) in
  let cols := sort_by key_leb (unique (map snd ps)) in
  mkCrossTab idx
    (map (fun c => (c, NumColumn
                         (map (fun r => Some (inject_Z (Z.of_nat (pair_count r c ps))))
                              idx)))
         cols).

Definition nrows (data : DataFrame) : nat :=
  match data with
  | [] => 0%nat
  | (_, c) :: _ => column_length c
  end.

(** [data] itself as the cross-tabulation: its index is 0, 1, 2, ... *)
Definition as_crosstab (data : DataFrame) : CrossTab :=
  mkCrossTab (map (fun i => KNum (inject_Z (Z.of_nat i))) (seq 0 (nrows data)))
             (map (fun nc => (KStr (fst nc), snd nc)) data).

(** The numbers of the columns.  As in [groupby_sum], a text in a cell
    makes the arithmetic of pandas raise TypeError. *)
Definition numbers_of (c : column) : result (list (option Q)) :=
  match c with
  | NumColumn ws => Ok ws
  | StrColumn ts =>
      if existsb is_some ts then Raise TypeError else Ok (map (fun _ => None) ts)
  end.

Fixpoint all_numbers (cols : list (key * column)) : result (list (key * list (option Q))) :=
  match cols with
  | [] => Ok []
  | (k, c) :: rest =>
      ws <- numbers_of c ;;
      rest' <- all_numbers rest ;;
      Ok ((k, ws) :: rest')
  end.

(** [cross_t.sum()] for one column, [cross_t.sum().sum()], and
    [cross_t.sum(axis=1)] for the row at position [i]: missing cells are
    skipped. *)
Definition col_sum (col : list (option Q)) : Q := Qsum (dropna col).

Definition grand_total (cols : list (key * list (option Q))) : Q :=
  Qsum (map (fun kc => col_sum (snd kc)) cols).

Definition row_sum (cols : list (key * list (option Q))) (i : nat) : Q :=
  Qsum (dropna (map (fun kc => nth i (snd kc) None) cols)).

(** One cell divided by a sum, times 100: a missing cell stays NaN. *)
Definition percent_of (cell : option Q) (s : Q) : Float.t :=
  match cell with
  | Some q => Float.mul (Float.truediv q s) 100
  | None => Float.NaN
  end.

(** [cross_t.div(cross_t.sum().sum()) * 100] *)
Definition div_all (cols : list (key * list (option Q))) : list (key * list Float.t) :=
  map (fun kc => (fst kc, map (fun cell => percent_of cell (grand_total cols)) (snd kc)))
      cols.

(** [cross_t.div(cross_t.sum(axis=1), axis=0) * 100] *)
Definition div_rows (cols : list (key * list (option Q))) : list (key * list Float.t) :=
  map (fun kc =>
         (fst kc,
          map (fun ic => percent_of (snd ic) (row_sum cols (fst ic)))
              (combine (seq 0 (List.length (snd kc))) (snd kc))))
      cols.

(** [cross_t.div(cross_t.sum(axis=0), axis=1) * 100] *)
Definition div_columns (cols : list (key * list (option Q))) : list (key * list Float.t) :=
  map (fun kc => (fst kc, map (fun cell => percent_of cell (col_sum (snd kc))) (snd kc)))
      cols.

(** The frame that is plotted: columns of texts, or of floats. *)
Inductive plot_column : Type :=
| TextColumn (cells : list (option string))
| FloatColumn (cells : list Float.t).

Record PlotFrame : Type := mkPlotFrame {
  pf_index : list key;
  pf_columns : list (key * plot_column)
}.

Definition float_of_cell (cell : option Q) : Float.t :=
  match cell with
  | Some q => Float.Finite q
  | None => Float.NaN
  end.

(** The cross-tabulation itself as the plotted frame. *)
Definition frame_of (t : CrossTab) : PlotFrame :=
  mkPlotFrame (ct_index t)
    (map (fun kc => (fst kc,
                     match snd kc with
                     | StrColumn ts => TextColumn ts
                     | NumColumn ws => FloatColumn (map float_of_cell ws)
                     end))
         (ct_columns t)).

Definition float_frame (idx : list key) (cols : list (key * list Float.t)) : PlotFrame :=
  mkPlotFrame idx (map (fun kc => (fst kc, FloatColumn (snd kc))) cols).

(** An argument that is None, a string, an int or a bool, and the [==]
    of Python on such values: a bool is equal to the int 0 or 1. *)
Inductive pyarg : Type :=
| ANone
| AStr (s : string)
| AInt (z : Z)
| ABool (b : bool).

Definition int_of_bool (b : bool) : Z := if b then 1%Z else 0%Z.

Definition py_eq (a b : pyarg) : bool :=
  match a, b with
  | ANone, ANone => true
  | AStr s, AStr t => String.eqb s t
  | AInt m, AInt n => Z.eqb m n
  | ABool c, ABool d => Bool.eqb c d
  | AInt m, ABool d => Z.eqb m (int_of_bool d)
  | ABool c, AInt n => Z.eqb (int_of_bool c) n
  | _, _ => false
  end.

(** [a in l] *)
Definition py_in (a : pyarg) (l : list pyarg) : bool := existsb (py_eq a) l.

Definition is_None (a : pyarg) : bool :=
  match a with ANone => true | _ => false end.

(** [data[x]] for a column name that may be None: None is the name of no
    column. *)
Definition getitem_opt (data : DataFrame) (x : option string) : result column :=
  match x with
  | Some x => getitem data x
  | None => Raise (KeyError "None")
  end.

Section PlotCrosstab.

(** The bar plot of pandas,
    [cross_p.plot.bar(ec=ec, title=title, rot=rot, xlabel=xlabel, ylabel=ylabel)],
    is taken as it is. *)
Variable plot_bar :
  PlotFrame -> string -> option string -> Q -> option string -> option string
  -> outcome Axes.

Definition plot_crosstab_as_barplot
  (data : DataFrame) (x y : option string) (title : option string)
  (xlabel ylabel : option string) (normalize : pyarg) (rot : Q) : outcome Axes :=
  cross_t <~ (if negb (is_some x) && negb (is_some y)
              then Return (as_crosstab data)
              else a <~ lift (getitem_opt data x) ;;
                   b <~ lift (getitem_opt data y) ;;
                   Return (crosstab a b)) ;;
  cross_p <~ (if py_eq normalize (AStr "all")
              then cols <~ lift (all_numbers (ct_columns cross_t)) ;;
                   Return (float_frame (ct_index cross_t) (div_all cols))
              else if py_in normalize [AStr "row"; AStr "index"; AStr "x"; AInt 0]
              then cols <~ lift (all_numbers (ct_columns cross_t)) ;;
                   Return (float_frame (ct_index cross_t) (div_rows cols))
              else if py_in normalize [AStr "column"; AStr "columns"; AStr "color"; AInt 1]
              then cols <~ lift (all_numbers (ct_columns cross_t)) ;;
                   Return (float_frame (ct_index cross_t) (div_columns cols))
              else Return (frame_of cross_t)) ;;
  let ylabel :=
    match ylabel with
    | None =>
        if negb (is_None normalize) then Some "Percentage"
        else if is_some x && is_some y then Some "Count"
        else ylabel
    | Some _ => ylabel
    end in
  plot_bar cross_p "black" title rot xlabel ylabel.

End PlotCrosstab.

(** The annotation the loop adds for the bar [rect] and the label [l]. *)
Definition value_label (spacing size : Q) (weight : string) (rotation : option Q)
  (pair : Rectangle * pyvalue) : Annotation :=
  let h := get_height (fst pair) in
  mkAnnotation (snd pair)
               (get_x (fst pair) + get_width (fst pair) / 2, h)
               (0, if Qltb h 0 then spacing * -(1) else spacing)
               "offset points" "center"
               (if Qltb h 0 then "top" else "bottom")
               size weight rotation.

(** Instances of the two functions [plot_counts_with_labels] takes as
    they are, for the examples: [str.capitalize] on ASCII letters, and a
    bar plot that draws one bar of width 0.5 per row, centred on the
    row number, a missing value as a bar of height 0. *)
Definition ascii_upper (c : ascii) : ascii :=
  let n := nat_of_ascii c in
  if (97 <=? n)%nat && (n <=? 122)%nat then ascii_of_nat (n - 32) else c.

Definition ascii_lower (c : ascii) : ascii :=
  let n := nat_of_ascii c in
  if (65 <=? n)%nat && (n <=? 90)%nat then ascii_of_nat (n + 32) else c.

Fixpoint string_map (f : ascii -> ascii) (s : string) : string :=
  match s with
  | EmptyString => EmptyString
  | String c s' => String (f c) (string_map f s')
  end.

Definition ascii_capitalize (s : string) : string :=
  match s with
  | EmptyString => EmptyString
  | String c s' => String (ascii_upper c) (string_map ascii_lower s')
  end.

Definition new_axes : Axes := mkAxes [] [] None None None None.

Definition bars_per_row
  (counts : DataFrame) (x y : string) (legend : bool) (ax : option Axes) (ec : string)
  : outcome Axes :=
  _ <~ lift (getitem counts x) ;;
  c <~ lift (getitem counts y) ;;
  match c with
  | StrColumn _ => Throw (Exn TypeError)
  | NumColumn cells =>
      let ax := match ax with Some ax => ax | None => new_axes end in
      let bars :=
        map (fun ih => mkRectangle (inject_Z (Z.of_nat (fst ih)) - (1 # 4)) (1 # 2)
                                   (match snd ih with Some h => h | None => 0 end))
            (combine (seq 0 (List.length cells)) cells) in
      Return (mkAxes (patches ax ++ bars) (texts ax) (ax_title ax) (ax_xlabel ax)
                     (ax_ylabel ax) (ax_ylim ax))
  end.

Definition two_bars : Axes :=
  mkAxes [mkRectangle (-(1 # 4)) (1 # 2) 3; mkRectangle (3 # 4) (1 # 2) (-(2))]
         [] None None None None.

Definition abb_counts : FrequencyTable :=
  mkFrequencyTable ["g"; "n"; "percent"]
                   [(KStr "b", 3, "60.0%"); (KStr "a", 2, "40.0%")].

(** An instance of the bar plot [plot_crosstab_as_barplot] takes as it
    is, for the examples: it keeps the labels and draws nothing. *)
Definition labels_only
  (frame : PlotFrame) (ec : string) (title : option string) (rot : Q)
  (xlabel ylabel : option string) : outcome Axes :=
  Return (mkAxes [] [] (option_map (fun t => (t, 12)) title) xlabel ylabel None).

(** ** Further notions and inputs *)


(** The count column of a frequency table as a series. *)
Definition count_column (ft : FrequencyTable) : Series Q :=
  mkSeries None (map (fun r => (row_label r, row_count r)) (rows ft)).

(** ** Facts about numbers *)

Lemma Qltb_lt (a b : Q) : Qltb a b = true <-> a < b.
Proof.
  unfold Qltb. rewrite negb_true_iff. split; intro H.
  - apply Qnot_le_lt. intro Hle. apply Qle_bool_iff in Hle. congruence.
  - destruct (Qle_bool b a) eqn:E; [|reflexivity].
    apply Qle_bool_iff in E. lra.
Qed.

Lemma Qltb_ge (a b : Q) : Qltb a b = false <-> b <= a.
Proof.
  unfold Qltb. rewrite negb_false_iff. apply Qle_bool_iff.
Qed.

Lemma Qle_bool_total (a b : Q) : Qle_bool a b = true \/ Qle_bool b a = true.
Proof.
  destruct (Qle_bool a b) eqn:E; [auto|]. right.
  apply Qle_bool_iff.
  assert (H : ~ a <= b) by (intro H; apply Qle_bool_iff in H; congruence).
  lra.
Qed.







(** ** Facts about the formatted strings *)

Lemma length_append (s t : string) :
  String.length (s ++ t) = (String.length s + String.length t)%nat.
Proof.
  induction s as [|c s IH]; simpl; [reflexivity|]. rewrite IH. reflexivity.
Qed.


Lemma decimal_digit (d : Z) : (0 <= d < 10)%Z -> String.length (decimal d) = 1%nat.
Proof.
  intro H.
  assert (Hd : d = 0%Z \/ d = 1%Z \/ d = 2%Z \/ d = 3%Z \/ d = 4%Z \/ d = 5%Z
               \/ d = 6%Z \/ d = 7%Z \/ d = 8%Z \/ d = 9%Z) by lia.
  repeat (destruct Hd as [-> | Hd]; [reflexivity|]). subst d. reflexivity.
Qed.


(** ** The examples of the documentation *)

Example docstring_example_1 :
  values (counts_to_percentages (ser [1; 0; 1000; 2000; 1000; 5000; 1000]) "percent")
  = ["<0.1%"; "0%"; "10.0%"; "20.0%"; "10.0%"; "50.0%"; "10.0%"].
Proof. vm_compute. reflexivity. Qed.

Example docstring_example_2 :
  values (counts_to_percentages (ser [1; 0; 10000]) "percent")
  = ["<0.1%"; "0%"; ">99.9%"].
Proof. vm_compute. reflexivity. Qed.

Example format_examples :
  map format_1f [234 # 10; 1 # 4; 3 # 4; 5 # 100; -(4 # 100); 100; 9995 # 100]
  = ["23.4"; "0.2"; "0.8"; "0.0"; "-0.0"; "100.0"; "100.0"].
Proof. vm_compute. reflexivity. Qed.

Example builder_example :
  calc_counts_and_percentages "g" abb_table (SortBool true) None "n" "percent"
  = Ok (mkFrequencyTable ["g"; "n"; "percent"]
          [(KStr "b", 3, "60.0%"); (KStr "a", 2, "40.0%")]).
Proof. vm_compute. reflexivity. Qed.

Example builder_example_index :
  calc_counts_and_percentages "g" abb_table (SortStr "index") None "n" "percent"
  = Ok (mkFrequencyTable ["g"; "n"; "percent"]
          [(KStr "a", 2, "40.0%"); (KStr "b", 3, "60.0%")]).
Proof. vm_compute. reflexivity. Qed.

Example builder_example_weighted :
  calc_counts_and_percentages "g" abb_table (SortBool true) (Some "w") "n" "percent"
  = Ok (mkFrequencyTable ["g"; "n"; "percent"]
          [(KStr "a", 6 # 1, "75.0%"); (KStr "b", 2 # 1, "25.0%")]).
Proof. vm_compute. reflexivity. Qed.

(** ** The shape of the formatter's result *)

Lemma combine_fst_snd {A B C} (f : B -> C) (l : list (A * B)) :
  combine (map fst l) (map f (map snd l)) = map (fun kv => (fst kv, f (snd kv))) l.
Proof.
  induction l as [|[k v] l IH]; simpl; [reflexivity|]. rewrite IH. reflexivity.
Qed.

Lemma items_counts_to_percentages (x : Series Q) (n : string) :
  items (counts_to_percentages x n)
  = map (fun kc => (fst kc, label_of_count (Series_sum x) (snd kc))) (items x).
Proof.
  unfold counts_to_percentages, replace, new_Series, raw_percentages, index, values.
  simpl. rewrite map_map.
  rewrite (combine_fst_snd
             (fun c => percentage_label (Float.mul (Float.truediv c (Series_sum x)) 100))).
  rewrite map_map. reflexivity.
Qed.

Lemma index_counts_to_percentages (x : Series Q) (n : string) :
  index (counts_to_percentages x n) = index x.
Proof.
  unfold index. rewrite items_counts_to_percentages, map_map. reflexivity.
Qed.

Lemma values_counts_to_percentages (x : Series Q) (n : string) :
  values (counts_to_percentages x n)
  = map (label_of_count (Series_sum x)) (values x).
Proof.
  unfold values. rewrite items_counts_to_percentages, !map_map. reflexivity.
Qed.

Lemma raw_percentage_finite (total c : Q) :
  ~ total == 0 ->
  Float.mul (Float.truediv c total) 100 = Float.Finite (c / total * 100).
Proof.
  intro Ht. unfold Float.truediv.
  destruct (Qeq_bool total 0) eqn:E.
  - apply Qeq_bool_iff in E. contradiction.
  - reflexivity.
Qed.


(** ** The percentage formatter *)



(** The doubles nearest to some numbers: 1/3; 2^53 + 1 and 2^53 + 3,
    which lie half way between two doubles; the least double and the
    half of it; the greatest double, 2^1024 - 2^971, and infinity from
    2^1024 - 2^970 on. *)
Example round64_examples :
  Binary64.round64 (1 # 3) = Float.Finite (6004799503160661 # 18014398509481984)
  /\ Binary64.round64 (9007199254740993 # 1) = Float.Finite (9007199254740992 # 1)
  /\ Binary64.round64 (9007199254740995 # 1) = Float.Finite (9007199254740996 # 1)
  /\ Binary64.round64 (-(1 # 10)) = Float.Finite (-(double_0_1))
  /\ Binary64.round64 (1 / 2 ^ 1074) = Float.Finite (Qred (1 / 2 ^ 1074))
  /\ Binary64.round64 (1 / 2 ^ 1075) = Float.Finite 0
  /\ Binary64.round64 (2 ^ 1024 - 2 ^ 970 - 1) = Float.Finite (Qred (2 ^ 1024 - 2 ^ 971))
  /\ Binary64.round64 (2 ^ 1024 - 2 ^ 970) = Float.PosInf
  /\ Binary64.round64 (-(2 ^ 1024)) = Float.NegInf.
Proof. vm_compute. repeat split; reflexivity. Qed.










Lemma map_snd_combine {A B} (l1 : list A) (l2 : list B) :
  map snd (combine l1 l2) = firstn (List.length l1) l2.
Proof.
  revert l2. induction l1 as [|a l1 IH]; intros [|b l2]; simpl; try reflexivity.
  rewrite IH. reflexivity.
Qed.

Lemma map_fst_combine {A B} (l1 : list A) (l2 : list B) :
  map fst (combine l1 l2) = firstn (List.length l2) l1.
Proof.
  revert l2. induction l1 as [|a l1 IH]; intros [|b l2]; simpl; try reflexivity.
  rewrite IH. reflexivity.
Qed.

Lemma values_of_combine {A B C} (f : B -> C) (idx : list A) (data : list B) :
  List.length idx = List.length data ->
  map (fun kv => f (snd kv)) (combine idx data) = map f data.
Proof.
  revert data. induction idx as [|k idx IH]; intros [|d data] H; simpl in *;
    try reflexivity; try discriminate.
  rewrite IH by (injection H as H; exact H). reflexivity.
Qed.

Lemma length_index_numbers (x : Binary64.NumSeries) :
  List.length (Binary64.index x) = List.length (Binary64.numbers x).
Proof.
  destruct x; simpl; rewrite !length_map; reflexivity.
Qed.

Lemma values_counts_to_percentages64 float_sum (x : Binary64.NumSeries) (n : string) :
  values (Binary64.counts_to_percentages float_sum x n)
  = map (fun p => replace_value "0.0%" "<0.1%" (Binary64.percentage_label p))
        (Binary64.raw_percentages float_sum x).
Proof.
  unfold Binary64.counts_to_percentages, values, rename, replace, new_Series.
  cbn [items]. rewrite map_map. cbn [snd].
  rewrite (values_of_combine (replace_value "0.0%" "<0.1%")), map_map; [reflexivity|].
  unfold Binary64.raw_percentages. rewrite !length_map. apply length_index_numbers.
Qed.

Lemma replace_value_not_old (old new v : string) :
  old <> new -> replace_value old new v <> old.
Proof.
  intros Hne. unfold replace_value.
  destruct (String.eqb v old) eqn:E; [congruence|].
  apply String.eqb_neq in E. exact E.
Qed.



(** In binary64 as well the result carries the index of the series and
    no label is "0.0%". *)
Lemma binary64_index_and_labels
  (float_sum : list Float.t -> Float.t) (x : Binary64.NumSeries) (n : string) :
  index (Binary64.counts_to_percentages float_sum x n) = Binary64.index x
  /\ Forall (fun s => s <> "0.0%") (values (Binary64.counts_to_percentages float_sum x n)).
Proof.
  split.
  - unfold Binary64.counts_to_percentages, index, rename, replace, new_Series.
    cbn [items]. rewrite map_map. cbn [fst].
    rewrite map_fst_combine, length_map.
    unfold Binary64.raw_percentages. rewrite length_map, <- length_index_numbers.
    apply firstn_all.
  - rewrite values_counts_to_percentages64.
    apply Forall_forall. intros s Hs. apply in_map_iff in Hs.
    destruct Hs as [p [<- _]]. apply replace_value_not_old. discriminate.
Qed.



(** The formatter on int64 counts: [23 / 80 * 100] is a double just
    below 28.75; [10**17 + 1] is no double, so that [10**17] is the
    whole total; the sum of [2**62] and [2**62] wraps around to
    [-2**63], and both shares are negative. *)
Example rounded_share_example :
  values (Binary64.counts_to_percentages Binary64.sum_in_order
            (int_series [23; 57]%Z) "percent")
  = ["28.7%"; "71.2%"].
Proof. vm_compute. reflexivity. Qed.

Example large_counts_example :
  values (Binary64.counts_to_percentages Binary64.sum_in_order
            (int_series [100000000000000000; 1]%Z) "percent")
  = ["100.0%"; "<0.1%"].
Proof. vm_compute. reflexivity. Qed.

Example wrapped_sum_example :
  values (Binary64.counts_to_percentages Binary64.sum_in_order
            (int_series [4611686018427387904; 4611686018427387904]%Z) "percent")
  = ["<0.1%"; "<0.1%"].
Proof. vm_compute. reflexivity. Qed.

Example mixed_counts_example :
  values (Binary64.counts_to_percentages Binary64.sum_in_order
            (int_series [1; 0; 10000; 999]%Z) "percent")
  = ["<0.1%"; "0%"; "90.9%"; "9.1%"].
Proof. vm_compute. reflexivity. Qed.



(** C6.  No label the formatter returns is "0.0%": the labels are the
    formatted raw percentages after the replacement of "0.0%" by
    "<0.1%". *)
Theorem never_zero_point_zero (x : Series Q) (n : string) :
  values (counts_to_percentages x n)
  = map (replace_value "0.0%" "<0.1%") (map percentage_label (raw_percentages x))
  /\ forall s, In s (values (counts_to_percentages x n)) -> s <> "0.0%".
Proof.
  assert (Hv : values (counts_to_percentages x n)
               = map (replace_value "0.0%" "<0.1%")
                     (map percentage_label (raw_percentages x))).
  { rewrite values_counts_to_percentages. unfold raw_percentages.
    rewrite !map_map. reflexivity. }
  split; [exact Hv|].
  intros s Hs. rewrite Hv in Hs. apply in_map_iff in Hs.
  destruct Hs as [v [Hv' _]]. subst s. unfold replace_value.
  destruct (String.eqb_spec v "0.0%") as [_|Hne]; [discriminate|exact Hne].
Qed.




(** C8.  The result carries the index of the input: the same labels in
    the same order, one label for each count. *)
Theorem percentages_keep_the_index (x : Series Q) (n : string) :
  index (counts_to_percentages x n) = index x
  /\ List.length (values (counts_to_percentages x n)) = List.length (values x).
Proof.
  split.
  - apply index_counts_to_percentages.
  - rewrite values_counts_to_percentages. apply length_map.
Qed.

(** ** Labels: equality and order *)

Lemma key_eqb_spec (a b : key) : reflect (a = b) (key_eqb a b).
Proof.
  destruct a as [s|[pn pd]], b as [t|[qn qd]]; simpl; try (constructor; discriminate).
  - destruct (String.eqb_spec s t) as [->|Hne]; constructor; congruence.
  - destruct (Z.eqb_spec pn qn) as [->|Hn]; simpl.
    + destruct (Pos.eqb_spec pd qd) as [->|Hd]; constructor; congruence.
    + constructor. congruence.
Qed.

Lemma key_eqb_refl (a : key) : key_eqb a a = true.
Proof. destruct (key_eqb_spec a a); congruence. Qed.

Lemma string_leb_trans (s t u : string) :
  String.leb s t = true -> String.leb t u = true -> String.leb s u = true.
Proof.
  unfold String.leb. revert t u.
  induction s as [|a s IH]; intros [|b t] [|c u]; simpl; try congruence.
  unfold Ascii.compare.
  destruct (N.compare_spec (N_of_ascii a) (N_of_ascii b)) as [Hab|Hab|Hab];
    destruct (N.compare_spec (N_of_ascii b) (N_of_ascii c)) as [Hbc|Hbc|Hbc];
    destruct (N.compare_spec (N_of_ascii a) (N_of_ascii c)) as [Hac|Hac|Hac];
    try congruence; try lia.
  apply IH.
Qed.

Lemma key_leb_total (a b : key) : key_leb a b = true \/ key_leb b a = true.
Proof.
  destruct a as [s|p], b as [t|q]; simpl; auto.
  - apply String.leb_total.
  - apply Qle_bool_total.
Qed.

Lemma key_leb_trans (a b c : key) :
  key_leb a b = true -> key_leb b c = true -> key_leb a c = true.
Proof.
  destruct a as [s|p], b as [t|q], c as [u|r]; simpl; try congruence.
  - apply string_leb_trans.
  - rewrite !Qle_bool_iff. intros. lra.
Qed.

(** ** Insertion sort *)

Section Sorting.

Context {A : Type} (before : A -> A -> bool).

Lemma insert_by_perm (x : A) (l : list A) :
  Permutation (insert_by before x l) (x :: l).
Proof.
  induction l as [|y l IH]; simpl; [reflexivity|].
  destruct (before x y); [reflexivity|].
  rewrite IH. apply perm_swap.
Qed.

Lemma sort_by_perm (l : list A) : Permutation (sort_by before l) l.
Proof.
  induction l as [|x l IH]; simpl; [reflexivity|].
  rewrite insert_by_perm, IH. reflexivity.
Qed.

Hypothesis before_total : forall x y, before x y = true \/ before y x = true.
Hypothesis before_trans :
  forall x y z, before x y = true -> before y z = true -> before x z = true.

Let ordered (x y : A) : Prop := before x y = true.

Lemma insert_by_sorted (x : A) (l : list A) :
  StronglySorted ordered l -> StronglySorted ordered (insert_by before x l).
Proof.
  induction l as [|y l IH]; intro Hs; simpl.
  - repeat constructor.
  - apply StronglySorted_inv in Hs. destruct Hs as [Hl Hy].
    destruct (before x y) eqn:E.
    + constructor; [constructor; assumption|].
      constructor; [exact E|].
      eapply Forall_impl; [|exact Hy].
      intros z Hz. exact (before_trans x y z E Hz).
    + constructor; [apply IH; exact Hl|].
      apply Forall_forall. intros z Hz.
      apply (Permutation_in _ (insert_by_perm x l)) in Hz.
      destruct Hz as [<-|Hz].
      * destruct (before_total x y) as [H|H]; [congruence|exact H].
      * rewrite Forall_forall in Hy. apply Hy. exact Hz.
Qed.

Lemma sort_by_sorted (l : list A) : StronglySorted ordered (sort_by before l).
Proof.
  induction l as [|x l IH]; simpl; [constructor|].
  apply insert_by_sorted. exact IH.
Qed.

End Sorting.

Lemma StronglySorted_map {A B} (f : A -> B) (R : B -> B -> Prop) (l : list A) :
  StronglySorted (fun x y => R (f x) (f y)) l -> StronglySorted R (map f l).
Proof.
  induction 1 as [|x l Hs IH Hx]; simpl; constructor; [exact IH|].
  apply Forall_map. exact Hx.
Qed.

(** ** Distinct labels *)

Lemma In_dropna {A} (a : A) (l : list (option A)) : In a (dropna l) <-> In (Some a) l.
Proof.
  induction l as [|[b|] l IH]; simpl.
  - tauto.
  - rewrite IH. split; intros [H|H]; auto; left; congruence.
  - rewrite IH. split; [auto|]. intros [H|H]; [discriminate|exact H].
Qed.

Lemma In_unique (k : key) (l : list key) : In k (unique l) <-> In k l.
Proof.
  induction l as [|a l IH]; simpl; [tauto|].
  rewrite filter_In, IH.
  destruct (key_eqb_spec a k) as [->|Hne]; simpl.
  - split; auto.
  - split.
    + intros [H|[H _]]; auto.
    + intros [H|H]; auto.
Qed.

Lemma NoDup_unique (l : list key) : NoDup (unique l).
Proof.
  induction l as [|a l IH]; simpl; constructor.
  - rewrite filter_In. intros [_ H]. rewrite key_eqb_refl in H. discriminate.
  - apply NoDup_filter. exact IH.
Qed.

(** ** The steps of the table builder *)

Lemma StronglySorted_impl {A} (R R' : A -> A -> Prop) (l : list A) :
  (forall x y, R x y -> R' x y) -> StronglySorted R l -> StronglySorted R' l.
Proof.
  intros HR. induction 1 as [|x l Hs IH Hx]; constructor; [exact IH|].
  eapply Forall_impl; [|exact Hx]. intros y. apply HR.
Qed.

Lemma concat_body (counts : Series Q) (n p : string) :
  combine (index (rename counts n))
          (combine (values (rename counts n))
                   (values (rename (counts_to_percentages counts "percent") p)))
  = map (fun kc => (fst kc, (snd kc, label_of_count (Series_sum counts) (snd kc))))
        (items counts).
Proof.
  unfold index, values.
  change (items (rename counts n)) with (items counts).
  change (items (rename (counts_to_percentages counts "percent") p))
    with (items (counts_to_percentages counts "percent")).
  rewrite items_counts_to_percentages, map_map. simpl.
  induction (items counts) as [|[k c] l IH]; simpl; [reflexivity|].
  rewrite IH. reflexivity.
Qed.

Lemma assemble_table (counts : Series Q) (group n p : string) :
  reset_index
    (rename_axis
       (concat_axis1 (rename counts n)
                     (rename (counts_to_percentages counts "percent") p))
       group)
  = if String.eqb group n || String.eqb group p then Raise ValueError
    else Ok (mkFrequencyTable [group; n; p] (table_rows counts)).
Proof.
  unfold reset_index, rename_axis, concat_axis1. simpl.
  change (column_label (rename counts n)) with n.
  change (column_label (rename (counts_to_percentages counts "percent") p)) with p.
  destruct (String.eqb group n || String.eqb group p); [reflexivity|].
  rewrite concat_body, map_map. reflexivity.
Qed.

Lemma assemble_table_ok (counts : Series Q) (group n p : string) (ft : FrequencyTable) :
  reset_index
    (rename_axis
       (concat_axis1 (rename counts n)
                     (rename (counts_to_percentages counts "percent") p))
       group) = Ok ft ->
  ft = mkFrequencyTable [group; n; p] (table_rows counts).
Proof.
  rewrite assemble_table.
  destruct (String.eqb group n || String.eqb group p); congruence.
Qed.

Lemma calc_unweighted_inv group data sort n p ft :
  calc_counts_and_percentages group data sort None n p = Ok ft ->
  exists c,
    getitem data group = Ok c
    /\ ft = mkFrequencyTable [group; n; p]
              (table_rows (if eq_str sort "index"
                           then sort_index (value_counts c (eq_True sort))
                           else value_counts c (eq_True sort))).
Proof.
  unfold calc_counts_and_percentages. intro H.
  destruct (getitem data group) as [c|e] eqn:Ec; simpl in H; [|discriminate].
  exists c. split; [reflexivity|].
  apply assemble_table_ok in H. exact H.
Qed.

Lemma calc_weighted_inv group data sort w n p ft :
  calc_counts_and_percentages group data sort (Some w) n p = Ok ft ->
  exists c wc counts,
    getitem data group = Ok c
    /\ getitem data w = Ok wc
    /\ groupby_sum (mkSeriesGroupBy (labels c) w wc) = Ok counts
    /\ ft = mkFrequencyTable [group; n; p] (table_rows counts).
Proof.
  unfold calc_counts_and_percentages, groupby, groupby_getitem. intro H.
  destruct (getitem data group) as [c|e] eqn:Ec; simpl in H; [|discriminate].
  destruct (getitem data w) as [wc|e] eqn:Ew; simpl in H; [|discriminate].
  destruct (groupby_sum (mkSeriesGroupBy (labels c) w wc)) as [counts|e] eqn:Es;
    simpl in H; [|discriminate].
  exists c, wc, counts.
  apply assemble_table_ok in H. auto.
Qed.

Lemma row_labels_of_table (counts : Series Q) :
  map row_label (table_rows counts) = index counts.
Proof.
  unfold table_rows, index. rewrite map_map. reflexivity.
Qed.

Lemma index_value_counts (c : column) (sort : bool) :
  Permutation (index (value_counts c sort)) (unique (dropna (labels c))).
Proof.
  unfold index, value_counts. simpl.
  set (counts := map _ (unique (dropna (labels c)))).
  assert (Hc : map fst counts = unique (dropna (labels c))).
  { unfold counts. rewrite map_map. simpl. apply map_id. }
  rewrite <- Hc.
  destruct sort; [|reflexivity].
  apply Permutation_map. apply sort_by_perm.
Qed.

Lemma index_sort_index {A} (s : Series A) : Permutation (index (sort_index s)) (index s).
Proof.
  unfold index, sort_index. simpl. apply Permutation_map. apply sort_by_perm.
Qed.

Lemma index_groupby_sum (g : SeriesGroupBy) (counts : Series Q) :
  groupby_sum g = Ok counts ->
  index counts = sort_by key_leb (unique (dropna (sby_labels g))).
Proof.
  unfold groupby_sum. intro H.
  destruct (selected g) as [ts|ws].
  - destruct (sort_by key_leb _); [|discriminate].
    injection H as <-. reflexivity.
  - injection H as <-. unfold index. simpl. rewrite map_map. simpl. apply map_id.
Qed.

Lemma value_counts_sorted (c : column) :
  StronglySorted count_descending (table_rows (value_counts c true)).
Proof.
  unfold table_rows. apply StronglySorted_map.
  unfold count_descending, row_count. simpl.
  eapply StronglySorted_impl; [|apply sort_by_sorted].
  - intros x y H. simpl in H. apply Qle_bool_iff in H. exact H.
  - intros x y. apply Qle_bool_total.
  - intros x y z. simpl. rewrite !Qle_bool_iff. intros. lra.
Qed.

Lemma sort_index_sorted (s : Series Q) :
  StronglySorted label_ascending (table_rows (sort_index s)).
Proof.
  unfold table_rows. apply StronglySorted_map.
  unfold label_ascending, row_label. simpl.
  apply (sort_by_sorted (fun a b : key * Q => key_leb (fst a) (fst b))).
  - intros x y. apply key_leb_total.
  - intros x y z. apply key_leb_trans.
Qed.

Lemma groupby_sum_sorted (g : SeriesGroupBy) (counts : Series Q) :
  groupby_sum g = Ok counts ->
  StronglySorted label_ascending (table_rows counts).
Proof.
  intro H. apply index_groupby_sum in H.
  unfold table_rows, label_ascending, row_label.
  apply StronglySorted_map. simpl.
  apply (StronglySorted_impl (fun x y : key * Q => key_leb (fst x) (fst y) = true));
    [auto|].
  assert (Hs : StronglySorted (fun a b => key_leb a b = true) (index counts)).
  { rewrite H. apply sort_by_sorted; [apply key_leb_total|apply key_leb_trans]. }
  unfold index in Hs. clear H.
  induction (items counts) as [|x l IH]; simpl in *; [constructor|].
  apply StronglySorted_inv in Hs. destruct Hs as [Hl Hx].
  constructor; [apply IH; exact Hl|].
  rewrite Forall_map in Hx. exact Hx.
Qed.

Lemma row_labels_perm group data sort weight n p c ft :
  getitem data group = Ok c ->
  calc_counts_and_percentages group data sort weight n p = Ok ft ->
  Permutation (map row_label (rows ft)) (unique (dropna (labels c))).
Proof.
  intros Hc H. destruct weight as [w|].
  - apply calc_weighted_inv in H.
    destruct H as [c' [wc [counts [Hc' [_ [Hs ->]]]]]].
    assert (c' = c) by congruence. subst c'. simpl.
    rewrite row_labels_of_table, (index_groupby_sum _ _ Hs). simpl.
    apply sort_by_perm.
  - apply calc_unweighted_inv in H. destruct H as [c' [Hc' ->]].
    assert (c' = c) by congruence. subst c'. simpl.
    rewrite row_labels_of_table.
    destruct (eq_str sort "index").
    + rewrite index_sort_index. apply index_value_counts.
    + apply index_value_counts.
Qed.

Lemma zero_rows_lookup (data : DataFrame) (col : string) (c : column) :
  zero_rows data -> lookup data col = Some c -> labels c = [].
Proof.
  unfold zero_rows. induction 1 as [|[m c'] data Hc' _ IH]; simpl; [discriminate|].
  destruct (String.eqb m col).
  - intro H. injection H as <-. simpl in Hc'.
    destruct c' as [[|]|[|]]; simpl in *; congruence.
  - exact IH.
Qed.

Lemma zero_rows_sum (data : DataFrame) (col name : string) (c : column) (l : list (option key)) :
  l = [] ->
  groupby_sum (mkSeriesGroupBy l name c) = Ok (mkSeries (Some name) []).
Proof.
  intros ->. unfold groupby_sum. simpl. destruct c; reflexivity.
Qed.

(** A call that names existing columns, a numeric one for the weight,
    and a group name that is not an output column name returns a table. *)
Lemma builder_succeeds group data sort weight n p c :
  lookup data group = Some c ->
  (forall w, weight = Some w -> exists ws, lookup data w = Some (NumColumn ws)) ->
  group <> n -> group <> p ->
  exists ft, calc_counts_and_percentages group data sort weight n p = Ok ft.
Proof.
  intros Hc Hw Hn Hp.
  assert (Hnames : String.eqb group n || String.eqb group p = false).
  { apply orb_false_iff. split; apply String.eqb_neq; assumption. }
  unfold calc_counts_and_percentages, groupby, groupby_getitem, getitem.
  rewrite Hc. simpl. destruct weight as [w|].
  - destruct (Hw w eq_refl) as [ws Hws]. rewrite Hws. simpl.
    rewrite assemble_table, Hnames. eauto.
  - simpl. rewrite assemble_table, Hnames. eauto.
Qed.

(** ** The frequency table builder *)

(** C3.  Without a weight, [sort=True] leaves the rows in descending
    order of count and [sort="index"] in ascending order of label.  With
    a weight the rows are those of the grouped sums in the order the
    grouping returned them, whatever [sort] is: no sort by count is
    applied. *)
Theorem builder_row_order group data sort weight n p ft :
  calc_counts_and_percentages group data sort weight n p = Ok ft ->
  (weight = None -> sort = SortBool true ->
   StronglySorted count_descending (rows ft))
  /\ (weight = None -> sort = SortStr "index" ->
      StronglySorted label_ascending (rows ft))
  /\ (forall w, weight = Some w ->
      (forall sort', calc_counts_and_percentages group data sort' weight n p = Ok ft)
      /\ exists c wc counts,
          getitem data group = Ok c
          /\ getitem data w = Ok wc
          /\ groupby_sum (mkSeriesGroupBy (labels c) w wc) = Ok counts
          /\ rows ft = table_rows counts).
Proof.
  intro H. repeat split.
  - intros -> ->. apply calc_unweighted_inv in H. destruct H as [c [_ ->]].
    simpl. apply value_counts_sorted.
  - intros -> ->. apply calc_unweighted_inv in H. destruct H as [c [_ ->]].
    simpl. apply sort_index_sorted.
  - subst weight. intro sort'. exact H.
  - subst weight. apply calc_weighted_inv in H.
    destruct H as [c [wc [counts [Hc [Hw [Hs ->]]]]]].
    exists c, wc, counts. auto.
Qed.

Lemma builder_row_order_witness :
  StronglySorted count_descending [(KStr "b", 3, "60.0%"); (KStr "a", 2, "40.0%")].
Proof.
  exact (proj1 (builder_row_order "g" abb_table (SortBool true) None "n" "percent"
                  (mkFrequencyTable ["g"; "n"; "percent"]
                     [(KStr "b", 3, "60.0%"); (KStr "a", 2, "40.0%")])
                  eq_refl)
               eq_refl eq_refl).
Defined.

(** With a weight the rows need not be in descending order of count,
    not even under [sort=True]. *)
Example weighted_rows_not_by_count :
  calc_counts_and_percentages "g" bab_table (SortBool true) (Some "w") "n" "percent"
  = Ok (mkFrequencyTable ["g"; "n"; "percent"]
          [(KStr "a", 1, "16.7%"); (KStr "b", 5 # 1, "83.3%")])
  /\ ~ StronglySorted count_descending
         [(KStr "a", 1, "16.7%"); (KStr "b", 5 # 1, "83.3%")].
Proof.
  split; [vm_compute; reflexivity|].
  intro H. apply StronglySorted_inv in H. destruct H as [_ H].
  inversion H as [|r l Hr _]; subst.
  unfold count_descending, row_count in Hr. simpl in Hr. lra.
Qed.

(** The claim behind C4 as it is worded fails on two tables without
    rows: when the group column is called like the count column,
    [reset_index] raises ValueError, and a table without the group
    column raises KeyError. *)
Lemma empty_table_may_raise :
  zero_rows [("n", StrColumn [])]
  /\ calc_counts_and_percentages "n" [("n", StrColumn [])] (SortBool true) None
                                 "n" "percent"
     = Raise ValueError
  /\ zero_rows []
  /\ calc_counts_and_percentages "g" [] (SortBool true) None "n" "percent"
     = Raise (KeyError "g").
Proof.
  repeat split; repeat constructor.
Qed.

(** C4, amended.  A table without rows that holds the columns the call
    names, the group name being the name of neither output column,
    gives a frequency table with the three columns and no row; the
    formatter maps the empty series to the empty series and divides
    nothing. *)
Theorem empty_table_builds group data sort weight n p :
  zero_rows data ->
  lookup data group <> None ->
  (forall w, weight = Some w -> lookup data w <> None) ->
  group <> n -> group <> p ->
  calc_counts_and_percentages group data sort weight n p
  = Ok (mkFrequencyTable [group; n; p] [])
  /\ forall nm name,
      raw_percentages (mkSeries nm []) = []
      /\ items (counts_to_percentages (mkSeries nm []) name) = [].
Proof.
  intros Hz Hg Hw Hn Hp. split; [|intros nm name; split; reflexivity].
  destruct (lookup data group) as [c|] eqn:Ec; [clear Hg|congruence].
  pose proof (zero_rows_lookup data group c Hz Ec) as Hl.
  assert (Hnames : String.eqb group n || String.eqb group p = false).
  { apply orb_false_iff. split; apply String.eqb_neq; assumption. }
  unfold calc_counts_and_percentages.
  destruct weight as [w|].
  - specialize (Hw w eq_refl).
    destruct (lookup data w) as [wc|] eqn:Ew; [clear Hw|congruence].
    unfold groupby, groupby_getitem, getitem. rewrite Ec. simpl. rewrite Ew. simpl.
    rewrite (zero_rows_sum data w w wc (labels c) Hl). simpl.
    rewrite assemble_table, Hnames. reflexivity.
  - unfold getitem. rewrite Ec. simpl.
    rewrite assemble_table, Hnames.
    unfold value_counts. rewrite Hl. simpl.
    destruct (eq_True sort), (eq_str sort "index"); reflexivity.
Qed.

Lemma empty_table_builds_witness :
  calc_counts_and_percentages "g" empty_table (SortBool true) (Some "w") "n" "percent"
  = Ok (mkFrequencyTable ["g"; "n"; "percent"] [])
  /\ forall nm name,
      raw_percentages (mkSeries nm []) = []
      /\ items (counts_to_percentages (mkSeries nm []) name) = [].
Proof.
  apply (empty_table_builds "g" empty_table (SortBool true) (Some "w") "n" "percent").
  - repeat constructor.
  - discriminate.
  - intros w Hw. injection Hw as <-. discriminate.
  - discriminate.
  - discriminate.
Defined.

(** C5.  When the group column, or the weight column that was asked
    for, is not in the table, the call raises KeyError and returns no
    table; the group column is looked up first. *)
Theorem missing_column_raises group data sort weight n p missing :
  lookup data missing = None ->
  missing = group \/ weight = Some missing ->
  calc_counts_and_percentages group data sort weight n p
  = Raise (KeyError (match lookup data group with
                     | None => group
                     | Some _ => missing
                     end)).
Proof.
  intros Hm Hwhich.
  unfold calc_counts_and_percentages, groupby, groupby_getitem, getitem.
  destruct (lookup data group) as [c|] eqn:Ec.
  - destruct Hwhich as [->| ->]; [congruence|].
    simpl. rewrite Hm. reflexivity.
  - destruct weight; reflexivity.
Qed.

Lemma missing_column_raises_witness :
  calc_counts_and_percentages "g" abb_table (SortBool true) (Some "v") "n" "percent"
  = Raise (KeyError "v").
Proof.
  apply (missing_column_raises "g" abb_table (SortBool true) (Some "v") "n" "percent" "v").
  - reflexivity.
  - right. reflexivity.
Defined.

(** C9.  The frequency table has one row for each distinct value of the
    group column (a missing cell is not a value): no label occurs twice,
    the labels are the values of the column, and there are as many rows
    as distinct values. *)
Theorem one_row_per_value group data sort weight n p c ft :
  getitem data group = Ok c ->
  calc_counts_and_percentages group data sort weight n p = Ok ft ->
  NoDup (map row_label (rows ft))
  /\ (forall k, In k (map row_label (rows ft)) <-> In (Some k) (labels c))
  /\ (forall ks, NoDup ks -> (forall k, In k ks <-> In (Some k) (labels c)) ->
      List.length (rows ft) = List.length ks).
Proof.
  intros Hc H.
  pose proof (row_labels_perm group data sort weight n p c ft Hc H) as Hperm.
  assert (Hnd : NoDup (map row_label (rows ft))).
  { apply (Permutation_NoDup (Permutation_sym Hperm)). apply NoDup_unique. }
  assert (Hin : forall k, In k (map row_label (rows ft)) <-> In (Some k) (labels c)).
  { intro k. split; intro Hk.
    - apply In_dropna, In_unique. exact (Permutation_in _ Hperm Hk).
    - apply In_dropna, In_unique in Hk.
      exact (Permutation_in _ (Permutation_sym Hperm) Hk). }
  repeat split; try exact Hnd; try apply Hin.
  intros ks Hks Hin'.
  rewrite <- (length_map row_label).
  apply Permutation_length. apply NoDup_Permutation; [exact Hnd|exact Hks|].
  intro k. rewrite Hin, Hin'. reflexivity.
Qed.

Lemma one_row_per_value_witness :
  NoDup [KStr "b"; KStr "a"]
  /\ (forall k, In k [KStr "b"; KStr "a"]
                <-> In (Some k) [Some (KStr "a"); Some (KStr "a"); Some (KStr "b");
                                 Some (KStr "b"); Some (KStr "b")])
  /\ (forall ks, NoDup ks ->
        (forall k, In k ks
                   <-> In (Some k) [Some (KStr "a"); Some (KStr "a"); Some (KStr "b");
                                    Some (KStr "b"); Some (KStr "b")]) ->
        2%nat = List.length ks).
Proof.
  exact (one_row_per_value "g" abb_table (SortBool true) None "n" "percent"
           (StrColumn [Some "a"; Some "a"; Some "b"; Some "b"; Some "b"])
           (mkFrequencyTable ["g"; "n"; "percent"]
              [(KStr "b", 3, "60.0%"); (KStr "a", 2, "40.0%")])
           eq_refl eq_refl).
Defined.

(** C10.  With a weight the [sort] argument changes nothing, [sort="index"]
    included: any two values of it give the same result, and the rows
    are in ascending order of label, each label once. *)
Theorem weighted_ignores_sort group data sort sort' w n p ft :
  calc_counts_and_percentages group data sort (Some w) n p = Ok ft ->
  calc_counts_and_percentages group data sort' (Some w) n p = Ok ft
  /\ StronglySorted label_ascending (rows ft)
  /\ NoDup (map row_label (rows ft)).
Proof.
  intro H. split; [exact H|].
  pose proof H as H'. apply calc_weighted_inv in H'.
  destruct H' as [c [wc [counts [Hc [_ [Hs ->]]]]]]. split.
  - simpl. exact (groupby_sum_sorted _ _ Hs).
  - apply (Permutation_NoDup
             (Permutation_sym (row_labels_perm group data sort (Some w) n p c _ Hc H))).
    apply NoDup_unique.
Qed.

Lemma weighted_ignores_sort_witness :
  calc_counts_and_percentages "g" bab_table (SortStr "index") (Some "w") "n" "percent"
  = Ok (mkFrequencyTable ["g"; "n"; "percent"]
          [(KStr "a", 1, "16.7%"); (KStr "b", 5 # 1, "83.3%")])
  /\ StronglySorted label_ascending [(KStr "a", 1, "16.7%"); (KStr "b", 5 # 1, "83.3%")]
  /\ NoDup [KStr "a"; KStr "b"].
Proof.
  exact (weighted_ignores_sort "g" bab_table (SortBool true) (SortStr "index") "w" "n"
           "percent"
           (mkFrequencyTable ["g"; "n"; "percent"]
              [(KStr "a", 1, "16.7%"); (KStr "b", 5 # 1, "83.3%")])
           eq_refl).
Defined.

(** ** More about the percentage formatter *)

Lemma Qsum_nonneg_bound (l : list Q) (c : Q) :
  Forall (fun v => 0 <= v) l -> In c l -> 0 <= Qsum l /\ c <= Qsum l.
Proof.
  induction 1 as [|v l Hv Hl IH]; simpl; [tauto|].
  assert (Hs : 0 <= Qsum l).
  { clear IH. induction Hl as [|w l Hw _ IHl]; simpl; lra. }
  intros [->|Hc].
  - lra.
  - destruct (IH Hc). lra.
Qed.

Lemma format_1f_long (q : Q) : (3 <= String.length (format_1f q ++ "%"))%nat.
Proof.
  unfold format_1f. rewrite !length_append.
  pose proof (decimal_digit (round_half_even (Qabs q * 10) mod 10)
                (Z.mod_pos_bound _ 10 eq_refl)) as Hd.
  rewrite Hd. simpl. lia.
Qed.









(** ** More about the table builder *)

Lemma Qsum_perm (l1 l2 : list Q) : Permutation l1 l2 -> Qsum l1 == Qsum l2.
Proof.
  induction 1 as [|a l1 l2 _ IH|a b l|l1 l2 l3 _ IH1 _ IH2]; simpl.
  - reflexivity.
  - rewrite IH. reflexivity.
  - ring.
  - rewrite IH1. exact IH2.
Qed.

Lemma Forall_perm {A} (P : A -> Prop) (l1 l2 : list A) :
  Permutation l1 l2 -> Forall P l1 -> Forall P l2.
Proof.
  intros Hp H. rewrite Forall_forall in *. intros a Ha.
  apply H. exact (Permutation_in _ (Permutation_sym Hp) Ha).
Qed.

(** The counts of the unweighted path, before any sorting. *)
Lemma unweighted_items (c : column) (sort : sort_arg) :
  Permutation
    (items (if eq_str sort "index"
            then sort_index (value_counts c (eq_True sort))
            else value_counts c (eq_True sort)))
    (map (fun k => (k, inject_Z (Z.of_nat (occurrences k (dropna (labels c))))))
         (unique (dropna (labels c)))).
Proof.
  assert (Hv : forall b, Permutation (items (value_counts c b))
                 (map (fun k => (k, inject_Z (Z.of_nat (occurrences k (dropna (labels c))))))
                      (unique (dropna (labels c))))).
  { intro b. unfold value_counts. simpl. destruct b; [apply sort_by_perm|reflexivity]. }
  destruct (eq_str sort "index"); [|apply Hv].
  unfold sort_index. simpl. rewrite sort_by_perm. apply Hv.
Qed.

Lemma occurrences_cons (k a : key) (l : list key) :
  occurrences k (a :: l) = ((if key_eqb k a then 1 else 0) + occurrences k l)%nat.
Proof.
  unfold occurrences. simpl. destruct (key_eqb k a); reflexivity.
Qed.

Lemma single_match (a : key) (ks : list key) :
  NoDup ks -> In a ks ->
  list_sum (map (fun k => if key_eqb k a then 1 else 0)%nat ks) = 1%nat.
Proof.
  induction 1 as [|k ks Hk Hnd IH]; simpl; [tauto|].
  intros [->|Ha].
  - rewrite key_eqb_refl.
    assert (Hz : list_sum (map (fun k => if key_eqb k a then 1 else 0)%nat ks) = 0%nat).
    { clear IH Hnd. induction ks as [|k ks IHk]; simpl; [reflexivity|].
      destruct (key_eqb_spec k a) as [->|_].
      - exfalso. apply Hk. left. reflexivity.
      - apply IHk. intro H. apply Hk. right. exact H. }
    rewrite Hz. reflexivity.
  - destruct (key_eqb_spec k a) as [->|_]; [contradiction|].
    simpl. apply IH. exact Ha.
Qed.

Lemma occurrences_partition (ks l : list key) :
  NoDup ks -> (forall a, In a l -> In a ks) ->
  list_sum (map (fun k => occurrences k l) ks) = List.length l.
Proof.
  intros Hnd. induction l as [|a l IH]; intro Hin.
  - unfold occurrences. simpl. clear Hnd Hin.
    induction ks as [|k ks IHk]; simpl; [reflexivity|exact IHk].
  - change (List.length (a :: l)) with (1 + List.length l)%nat.
    rewrite <- IH by (intros b Hb; apply Hin; right; exact Hb).
    rewrite <- (single_match a ks Hnd) by (apply Hin; left; reflexivity).
    clear IH Hin Hnd. induction ks as [|k ks IHk]; simpl; [reflexivity|].
    rewrite occurrences_cons, IHk. lia.
Qed.

Lemma Qsum_of_nat {A} (f : A -> nat) (l : list A) :
  Qsum (map (fun a => inject_Z (Z.of_nat (f a))) l)
  == inject_Z (Z.of_nat (list_sum (map f l))).
Proof.
  induction l as [|a l IH]; simpl; [reflexivity|].
  rewrite IH, Nat2Z.inj_add, inject_Z_plus. reflexivity.
Qed.

Lemma occurrences_pos (k : key) (l : list key) : In k l -> (1 <= occurrences k l)%nat.
Proof.
  intro H. unfold occurrences.
  assert (Hf : In k (filter (key_eqb k) l)).
  { apply filter_In. split; [exact H|apply key_eqb_refl]. }
  destruct (filter (key_eqb k) l); [contradiction|simpl; lia].
Qed.

Lemma counts_of_table (counts : Series Q) :
  map row_count (table_rows counts) = values counts.
Proof.
  unfold table_rows, values. rewrite map_map. reflexivity.
Qed.

(** X5.  Without a weight the count of a row is the number of cells of
    the group column that hold its label, at least 1, and the counts add
    up to the number of cells that are not missing. *)
Theorem unweighted_counts group data sort n p c ft :
  getitem data group = Ok c ->
  calc_counts_and_percentages group data sort None n p = Ok ft ->
  Forall (fun r => row_count r
                   = inject_Z (Z.of_nat (occurrences (row_label r) (dropna (labels c))))
                   /\ 1 <= row_count r)
         (rows ft)
  /\ Qsum (map row_count (rows ft))
     == inject_Z (Z.of_nat (List.length (dropna (labels c)))).
Proof.
  intros Hc H. apply calc_unweighted_inv in H. destruct H as [c' [Hc' ->]].
  assert (c' = c) by congruence. subst c'. simpl.
  pose proof (unweighted_items c sort) as Hp.
  set (counts := if eq_str sort "index" then _ else _) in *.
  split.
  - unfold table_rows. apply Forall_map.
    apply (Forall_perm _ _ _ (Permutation_sym Hp)).
    apply Forall_map. apply Forall_forall. intros k Hk.
    unfold row_count, row_label. simpl. split; [reflexivity|].
    apply (proj1 (In_unique _ _)), occurrences_pos in Hk.
    change 1 with (inject_Z (Z.of_nat 1)). rewrite <- Zle_Qle. lia.
  - rewrite counts_of_table. unfold values.
    rewrite (Qsum_perm _ _ (Permutation_map snd Hp)), map_map. simpl.
    rewrite (Qsum_of_nat (fun k => occurrences k (dropna (labels c)))).
    rewrite occurrences_partition; [reflexivity|apply NoDup_unique|].
    intros a Ha. apply In_unique. exact Ha.
Qed.

Lemma unweighted_counts_witness :
  Forall (fun r => row_count r
                   = inject_Z (Z.of_nat (occurrences (row_label r)
                                           [KStr "a"; KStr "a"; KStr "b"; KStr "b"; KStr "b"]))
                   /\ 1 <= row_count r)
         [(KStr "b", 3, "60.0%"); (KStr "a", 2, "40.0%")]
  /\ Qsum [3; 2] == 5.
Proof.
  exact (unweighted_counts "g" abb_table (SortBool true) "n" "percent"
           (StrColumn [Some "a"; Some "a"; Some "b"; Some "b"; Some "b"])
           (mkFrequencyTable ["g"; "n"; "percent"]
              [(KStr "b", 3, "60.0%"); (KStr "a", 2, "40.0%")])
           eq_refl eq_refl).
Defined.

Lemma calc_inv_rows group data sort weight n p ft :
  calc_counts_and_percentages group data sort weight n p = Ok ft ->
  exists counts, rows ft = table_rows counts.
Proof.
  intro H. destruct weight as [w|].
  - apply calc_weighted_inv in H. destruct H as [c [wc [counts [_ [_ [_ ->]]]]]].
    exists counts. reflexivity.
  - apply calc_unweighted_inv in H. destruct H as [c [_ ->]].
    eexists. reflexivity.
Qed.

Lemma unweighted_counts_pos (c : column) (sort : sort_arg) :
  Forall (fun v => 1 <= v)
         (values (if eq_str sort "index"
                  then sort_index (value_counts c (eq_True sort))
                  else value_counts c (eq_True sort))).
Proof.
  unfold values. apply Forall_map.
  apply (Forall_perm _ _ _ (Permutation_sym (unweighted_items c sort))).
  apply Forall_map. apply Forall_forall. intros k Hk. simpl.
  apply (proj1 (In_unique _ _)), occurrences_pos in Hk.
  change 1 with (inject_Z (Z.of_nat 1)). rewrite <- Zle_Qle. lia.
Qed.

Lemma table_rows_forall (P : key * Q * string -> Prop) (counts : Series Q) :
  (forall k v, In (k, v) (items counts) ->
               P (k, v, label_of_count (Series_sum counts) v)) ->
  Forall P (table_rows counts).
Proof.
  intro H. unfold table_rows. apply Forall_map. apply Forall_forall.
  intros [k v] Hkv. simpl. apply H. exact Hkv.
Qed.

Lemma label_of_count_not_zero (total c : Q) :
  ~ total == 0 -> ~ c == 0 -> label_of_count total c <> "0%".
Proof.
  intros Ht Hc. unfold label_of_count.
  rewrite (raw_percentage_finite total c Ht).
  set (q := c / total * 100).
  assert (Hq : ~ q == 0).
  { intro Hz. apply Hc.
    assert (He : c == q * total / 100) by (unfold q; field; exact Ht).
    rewrite He, Hz. reflexivity. }
  unfold percentage_label. cbn [Float.eqb Float.ltb float_format_1f].
  destruct (Qeq_bool q 0) eqn:E0; [apply Qeq_bool_iff in E0; contradiction|].
  destruct (Qltb q (1 # 10)); [discriminate|].
  destruct (Qltb (999 # 10) q && Qltb q 100); [discriminate|].
  unfold replace_value.
  destruct (String.eqb (format_1f q ++ "%") "0.0%"); [discriminate|].
  intro H. pose proof (format_1f_long q) as Hl. rewrite H in Hl. simpl in Hl. lia.
Qed.

(** X6.  Without a weight the formatter never meets its degenerate
    cases: the counts of a table with rows have a positive sum, and no
    row is labelled "0%". *)
Theorem unweighted_never_degenerate group data sort n p ft :
  calc_counts_and_percentages group data sort None n p = Ok ft ->
  Forall (fun r => 0 < Qsum (map row_count (rows ft))
                   /\ 1 <= row_count r
                   /\ row_percent r <> "0%")
         (rows ft).
Proof.
  intro H. apply calc_unweighted_inv in H. destruct H as [c [_ ->]]. simpl.
  pose proof (unweighted_counts_pos c sort) as Hpos.
  set (counts := if eq_str sort "index" then _ else _) in *.
  rewrite counts_of_table. fold (Series_sum counts).
  assert (Hnn : Forall (fun v => 0 <= v) (values counts)).
  { eapply Forall_impl; [|exact Hpos]. simpl. intros v Hv. lra. }
  apply table_rows_forall. intros k v Hkv.
  assert (Hv : In v (values counts)).
  { unfold values. apply in_map_iff. exists (k, v). auto. }
  assert (H1 : 1 <= v) by (rewrite Forall_forall in Hpos; apply Hpos; exact Hv).
  destruct (Qsum_nonneg_bound _ v Hnn Hv) as [_ Hle]. fold (Series_sum counts) in Hle.
  assert (Ht : 0 < Series_sum counts) by lra.
  unfold row_percent, row_count. simpl.
  split; [exact Ht|]. split; [exact H1|].
  apply label_of_count_not_zero; lra.
Qed.

Lemma unweighted_never_degenerate_witness :
  Forall (fun r => 0 < Qsum [3; 2]
                   /\ 1 <= row_count r
                   /\ row_percent r <> "0%")
         [(KStr "b", 3, "60.0%"); (KStr "a", 2, "40.0%")].
Proof.
  exact (unweighted_never_degenerate "g" abb_table (SortBool true) "n" "percent"
           (mkFrequencyTable ["g"; "n"; "percent"]
              [(KStr "b", 3, "60.0%"); (KStr "a", 2, "40.0%")])
           eq_refl).
Defined.

(** X7.  In every table the builder returns, the percentage column is
    what the formatter makes of the count column of that table. *)
Theorem percent_column_from_count_column group data sort weight n p ft :
  calc_counts_and_percentages group data sort weight n p = Ok ft ->
  values (counts_to_percentages (count_column ft) "percent")
  = map row_percent (rows ft).
Proof.
  intro H. apply calc_inv_rows in H. destruct H as [counts Hr].
  rewrite values_counts_to_percentages.
  unfold count_column, Series_sum, values. simpl. rewrite Hr.
  unfold table_rows. rewrite !map_map. simpl. reflexivity.
Qed.

Lemma percent_column_from_count_column_witness :
  values (counts_to_percentages
            (count_column (mkFrequencyTable ["g"; "n"; "percent"]
                             [(KStr "a", 1, "16.7%"); (KStr "b", 5 # 1, "83.3%")]))
            "percent")
  = ["16.7%"; "83.3%"].
Proof.
  exact (percent_column_from_count_column "g" bab_table (SortBool true) (Some "w") "n"
           "percent"
           (mkFrequencyTable ["g"; "n"; "percent"]
              [(KStr "a", 1, "16.7%"); (KStr "b", 5 # 1, "83.3%")])
           eq_refl).
Defined.

Lemma calc_ok_names group data sort weight n p ft :
  calc_counts_and_percentages group data sort weight n p = Ok ft ->
  String.eqb group n || String.eqb group p = false.
Proof.
  unfold calc_counts_and_percentages, groupby, groupby_getitem. intro H.
  destruct (String.eqb group n || String.eqb group p) eqn:E; [|reflexivity].
  exfalso. destruct weight as [w|].
  - destruct (getitem data group) as [c|e]; simpl in H; [|discriminate].
    destruct (getitem data w) as [wc|e]; simpl in H; [|discriminate].
    destruct (groupby_sum _) as [counts|e]; simpl in H; [|discriminate].
    rewrite assemble_table, E in H. discriminate.
  - destruct (getitem data group) as [c|e]; simpl in H; [|discriminate].
    rewrite assemble_table, E in H. discriminate.
Qed.

(** X9.  When the group name is also the name given to the count or to
    the percentage column, a call on existing columns (a numeric one for
    the weight) raises ValueError at [reset_index] and returns no
    table. *)
Theorem name_clash_raises group data sort weight n p c :
  lookup data group = Some c ->
  (forall w, weight = Some w -> exists ws, lookup data w = Some (NumColumn ws)) ->
  group = n \/ group = p ->
  calc_counts_and_percentages group data sort weight n p = Raise ValueError.
Proof.
  intros Hc Hw Hclash.
  assert (Hnames : String.eqb group n || String.eqb group p = true).
  { apply orb_true_iff. destruct Hclash as [->| ->]; [left|right]; apply String.eqb_refl. }
  unfold calc_counts_and_percentages, groupby, groupby_getitem, getitem.
  rewrite Hc. simpl. destruct weight as [w|].
  - destruct (Hw w eq_refl) as [ws Hws]. rewrite Hws. simpl.
    rewrite assemble_table, Hnames. reflexivity.
  - simpl. rewrite assemble_table, Hnames. reflexivity.
Qed.

Lemma name_clash_raises_witness :
  calc_counts_and_percentages "g" abb_table (SortBool true) None "g" "percent"
  = Raise ValueError.
Proof.
  apply (name_clash_raises "g" abb_table (SortBool true) None "g" "percent"
           (StrColumn [Some "a"; Some "a"; Some "b"; Some "b"; Some "b"])).
  - reflexivity.
  - discriminate.
  - left. reflexivity.
Defined.

(** ** The order of the input rows *)

(** A label as it comes out of a column: a number is in lowest terms. *)
Lemma labels_reduced (c : column) (q : Q) : In (Some (KNum q)) (labels c) -> Qred q = q.
Proof.
  destruct c as [cells|cells]; simpl; intro H; apply in_map_iff in H;
    destruct H as [[x|] [Hx _]]; simpl in Hx; try discriminate.
  injection Hx as <-.
  apply Qred_complete, Qred_correct.
Qed.

Lemma key_leb_antisym (a b : key) :
  (forall q, a = KNum q -> Qred q = q) ->
  (forall q, b = KNum q -> Qred q = q) ->
  key_leb a b = true -> key_leb b a = true -> a = b.
Proof.
  destruct a as [s|p], b as [t|q]; simpl; intros Ha Hb H1 H2; try discriminate.
  - f_equal. apply String.leb_antisym; assumption.
  - apply Qle_bool_iff in H1, H2.
    assert (He : p == q) by lra.
    apply Qred_complete in He.
    rewrite (Ha p eq_refl), (Hb q eq_refl) in He. congruence.
Qed.

Lemma occurrences_perm (k : key) (l1 l2 : list key) :
  Permutation l1 l2 -> occurrences k l1 = occurrences k l2.
Proof.
  induction 1 as [|a l1 l2 _ IH|a b l|l1 l2 l3 _ IH1 _ IH2].
  - reflexivity.
  - rewrite !occurrences_cons, IH. reflexivity.
  - rewrite !occurrences_cons. lia.
  - congruence.
Qed.

Lemma dropna_perm {A} (l1 l2 : list (option A)) :
  Permutation l1 l2 -> Permutation (dropna l1) (dropna l2).
Proof.
  induction 1 as [|[a|] l1 l2 _ IH|[a|] [b|] l|l1 l2 l3 _ IH1 _ IH2]; simpl;
    try reflexivity; try assumption.
  - apply perm_skip. exact IH.
  - apply perm_swap.
  - etransitivity; eassumption.
Qed.

Lemma unique_perm (l1 l2 : list key) :
  Permutation l1 l2 -> Permutation (unique l1) (unique l2).
Proof.
  intro H. apply NoDup_Permutation; try apply NoDup_unique.
  intro k. rewrite !In_unique. split; apply Permutation_in;
    [exact H|apply Permutation_sym; exact H].
Qed.

(** Two sorted lists of pairs with the same members and no label twice
    are the same list. *)
Lemma sorted_pairs_unique {B} (l1 l2 : list (key * B)) :
  (forall q b, In (KNum q, b) l1 -> Qred q = q) ->
  NoDup (map fst l1) ->
  Permutation l1 l2 ->
  StronglySorted (fun a b => key_leb (fst a) (fst b) = true) l1 ->
  StronglySorted (fun a b => key_leb (fst a) (fst b) = true) l2 ->
  l1 = l2.
Proof.
  revert l2. induction l1 as [|x t1 IH]; intros l2 Hred Hnd Hp Hs1 Hs2.
  - apply Permutation_nil in Hp. congruence.
  - destruct l2 as [|y t2].
    + apply Permutation_sym, Permutation_nil in Hp. discriminate.
    + assert (Hxy : x = y).
      { assert (Hx : In x (y :: t2)) by (apply (Permutation_in _ Hp); left; reflexivity).
        assert (Hy : In y (x :: t1))
          by (apply (Permutation_in _ (Permutation_sym Hp)); left; reflexivity).
        destruct Hx as [Hx|Hx]; [congruence|].
        destruct Hy as [Hy|Hy]; [congruence|]. exfalso.
        apply StronglySorted_inv in Hs1, Hs2.
        destruct Hs1 as [_ Hs1], Hs2 as [_ Hs2].
        rewrite Forall_forall in Hs1, Hs2.
        assert (Hk : fst x = fst y).
        { apply key_leb_antisym; [| |apply Hs1; exact Hy|apply Hs2; exact Hx].
          - intros q Hq. destruct x as [kx bx]. simpl in Hq. subst kx.
            apply (Hred q bx). left. reflexivity.
          - intros q Hq. destruct y as [ky b']. simpl in Hq. subst ky.
            apply (Hred q b'). right. exact Hy. }
        inversion Hnd as [|k ks Hnot _]; subst. apply Hnot.
        rewrite Hk. apply in_map. exact Hy. }
      subst y. f_equal. apply IH.
      * intros q b Hq. apply (Hred q b). right. exact Hq.
      * inversion Hnd; assumption.
      * exact (Permutation_cons_inv Hp).
      * apply StronglySorted_inv in Hs1. tauto.
      * apply StronglySorted_inv in Hs2. tauto.
Qed.

Lemma sort_index_of_counts_perm (c c' : column) :
  Permutation (labels c) (labels c') ->
  sort_index (value_counts c false) = sort_index (value_counts c' false).
Proof.
  intro Hp. unfold sort_index, value_counts. simpl. f_equal.
  pose proof (dropna_perm _ _ Hp) as Hd.
  set (l := dropna (labels c)) in *. set (l' := dropna (labels c')) in *.
  assert (Hmap : Permutation
            (map (fun k => (k, inject_Z (Z.of_nat (occurrences k l)))) (unique l))
            (map (fun k => (k, inject_Z (Z.of_nat (occurrences k l')))) (unique l'))).
  { rewrite (Permutation_map _ (unique_perm _ _ Hd)).
    erewrite map_ext; [reflexivity|].
    intro k. simpl. rewrite (occurrences_perm k l l' Hd). reflexivity. }
  apply sorted_pairs_unique.
  - intros q b Hq. apply (Permutation_in _ (sort_by_perm _ _)) in Hq.
    apply in_map_iff in Hq. destruct Hq as [k [Hk Hin]]. injection Hk as -> _.
    apply (labels_reduced c). apply In_dropna, In_unique. exact Hin.
  - apply (Permutation_NoDup (Permutation_map fst (Permutation_sym (sort_by_perm _ _)))).
    rewrite map_map. simpl. rewrite map_id. apply NoDup_unique.
  - rewrite !sort_by_perm. exact Hmap.
  - apply (sort_by_sorted (fun a b : key * Q => key_leb (fst a) (fst b)));
      [intros x y; apply key_leb_total|intros x y z; apply key_leb_trans].
  - apply (sort_by_sorted (fun a b : key * Q => key_leb (fst a) (fst b)));
      [intros x y; apply key_leb_total|intros x y z; apply key_leb_trans].
Qed.

(** X10.  With [sort="index"] and no weight the result does not depend
    on the order of the rows of the table: two group columns with the
    same cells in any order give the same result. *)
Theorem index_order_ignores_row_order group data data' n p c c' :
  getitem data group = Ok c ->
  getitem data' group = Ok c' ->
  Permutation (labels c) (labels c') ->
  calc_counts_and_percentages group data (SortStr "index") None n p
  = calc_counts_and_percentages group data' (SortStr "index") None n p.
Proof.
  intros Hc Hc' Hp. unfold calc_counts_and_percentages.
  rewrite Hc, Hc'. simpl.
  rewrite (sort_index_of_counts_perm c c' Hp). reflexivity.
Qed.

Lemma index_order_ignores_row_order_witness :
  calc_counts_and_percentages "g" abb_table (SortStr "index") None "n" "percent"
  = calc_counts_and_percentages "g"
      [("g", StrColumn [Some "a"; Some "b"; Some "a"; Some "b"; Some "b"])]
      (SortStr "index") None "n" "percent".
Proof.
  apply (index_order_ignores_row_order "g" abb_table
           [("g", StrColumn [Some "a"; Some "b"; Some "a"; Some "b"; Some "b"])]
           "n" "percent"
           (StrColumn [Some "a"; Some "a"; Some "b"; Some "b"; Some "b"])
           (StrColumn [Some "a"; Some "b"; Some "a"; Some "b"; Some "b"])).
  - reflexivity.
  - reflexivity.
  - simpl. apply perm_skip. apply perm_swap.
Defined.

(** ** Value labels on the bars *)

Lemma add_value_labels_fold (ls0 : list pyvalue) (spacing size : Q) (weight : string)
      (rotation : option Q) (pairs : list (Rectangle * pyvalue)) (ax : Axes) :
  fold_left (add_value_label (Some ls0) spacing size weight rotation) pairs ax
  = mkAxes (patches ax)
           (texts ax ++ map (value_label spacing size weight rotation) pairs)
           (ax_title ax) (ax_xlabel ax) (ax_ylabel ax) (ax_ylim ax).
Proof.
  revert ax. induction pairs as [|[rect l] pairs IH]; intro ax; simpl.
  - rewrite app_nil_r. destruct ax; reflexivity.
  - rewrite IH. unfold add_value_label, annotate, value_label. simpl.
    destruct (Qltb (get_height rect) 0); simpl; rewrite <- app_assoc; reflexivity.
Qed.

(** X11.  Called without labels the function raises TypeError (the zip
    over [None]), so the label made of the bar height is never used.
    Called with labels it returns; it leaves the bars, the title, the
    axis labels, the limits and the earlier annotations as they were and
    adds one annotation for each pair of the zip, with the labels as
    texts in their order: as many as there are bars or labels,
    whichever is fewer. *)
Theorem value_labels_added (ax : Axes) (labels : option (list pyvalue))
        (spacing size : Q) (weight : string) (rotation : option Q) :
  match ax_add_value_labels_ab ax labels spacing size weight rotation with
  | Throw e => labels = None /\ e = Exn TypeError
  | Return ax' =>
      exists ls new,
        labels = Some ls
        /\ patches ax' = patches ax
        /\ (ax_title ax', ax_xlabel ax', ax_ylabel ax', ax_ylim ax')
           = (ax_title ax, ax_xlabel ax, ax_ylabel ax, ax_ylim ax)
        /\ texts ax' = (texts ax ++ new)%list
        /\ map ann_text new = firstn (List.length (patches ax)) ls
        /\ List.length new = Nat.min (List.length (patches ax)) (List.length ls)
  end.
Proof.
  destruct labels as [ls|]; simpl; [|split; reflexivity].
  rewrite add_value_labels_fold.
  exists ls, (map (value_label spacing size weight rotation) (combine (patches ax) ls)).
  simpl. repeat split.
  - rewrite map_map. unfold value_label. simpl.
    change (fun x : Rectangle * pyvalue => snd x) with (@snd Rectangle pyvalue).
    apply map_snd_combine.
  - rewrite length_map. apply length_combine.
Qed.

(** X12.  Every annotation sits at the horizontal centre of its bar and
    at the height of the bar; it is placed [spacing] points above the
    top of a bar of non-negative height, with its bottom on that point,
    and [spacing] points below a bar of negative height, with its top on
    that point. *)
Theorem value_labels_placed (ax ax' : Axes) (ls : list pyvalue)
        (spacing size : Q) (weight : string) (rotation : option Q) :
  ax_add_value_labels_ab ax (Some ls) spacing size weight rotation = Return ax' ->
  exists new,
    texts ax' = (texts ax ++ new)%list
    /\ Forall2 (fun rect a =>
                  ann_xy a = (get_x rect + get_width rect / 2, get_height rect)
                  /\ ann_ha a = "center"
                  /\ ann_textcoords a = "offset points"
                  /\ fst (ann_xytext a) = 0
                  /\ (0 <= get_height rect ->
                      ann_va a = "bottom" /\ snd (ann_xytext a) = spacing)
                  /\ (get_height rect < 0 ->
                      ann_va a = "top" /\ snd (ann_xytext a) == - spacing))
               (firstn (List.length ls) (patches ax)) new.
Proof.
  simpl. rewrite add_value_labels_fold. intro H. injection H as <-. simpl.
  exists (map (value_label spacing size weight rotation) (combine (patches ax) ls)).
  split; [reflexivity|].
  rewrite <- map_fst_combine.
  induction (combine (patches ax) ls) as [|[rect l] pairs IH]; simpl; constructor;
    [|exact IH].
  unfold value_label. simpl.
  destruct (Qltb (get_height rect) 0) eqn:E.
  - apply Qltb_lt in E. repeat split; try reflexivity; try (exfalso; lra). ring.
  - apply Qltb_ge in E. repeat split; try reflexivity; exfalso; lra.
Qed.

Lemma value_labels_placed_witness :
  exists new,
    texts (mkAxes (patches two_bars)
                  (map (value_label 2 9 "bold" None)
                       (combine (patches two_bars) [PStr "60.0%"; PStr "40.0%"]))
                  None None None None)
    = (texts two_bars ++ new)%list
    /\ Forall2 (fun rect a =>
                  ann_xy a = (get_x rect + get_width rect / 2, get_height rect)
                  /\ ann_ha a = "center"
                  /\ ann_textcoords a = "offset points"
                  /\ fst (ann_xytext a) = 0
                  /\ (0 <= get_height rect ->
                      ann_va a = "bottom" /\ snd (ann_xytext a) = 2)
                  /\ (get_height rect < 0 ->
                      ann_va a = "top" /\ snd (ann_xytext a) == - (2)))
               (firstn 2 (patches two_bars)) new.
Proof.
  exact (value_labels_placed two_bars _ [PStr "60.0%"; PStr "40.0%"] 2 9 "bold" None
           eq_refl).
Defined.

(** ** The bar chart of a table of counts *)

Lemma fold_max_spec (l : list Q) (q : Q) :
  let m := fold_left (fun m v => if Qltb m v then v else m) l q in
  q <= m /\ (forall v, In v l -> v <= m) /\ In m (q :: l).
Proof.
  revert q. induction l as [|a l IH]; intro q; simpl.
  - repeat split; [lra|tauto|auto].
  - destruct (Qltb q a) eqn:E.
    + apply Qltb_lt in E. destruct (IH a) as [H1 [H2 H3]]. repeat split.
      * lra.
      * intros v [<-|Hv]; [exact H1|apply H2; exact Hv].
      * right. exact H3.
    + apply Qltb_ge in E. destruct (IH q) as [H1 [H2 H3]]. repeat split.
      * exact H1.
      * intros v [<-|Hv]; [lra|apply H2; exact Hv].
      * destruct H3 as [H3|H3]; [left; exact H3|right; right; exact H3].
Qed.

Lemma Qmax_list_spec (l : list Q) :
  match Qmax_list l with
  | Float.Finite m => (forall v, In v l -> v <= m) /\ In m l
  | Float.NaN => l = []
  | _ => False
  end.
Proof.
  destruct l as [|q l]; simpl; [reflexivity|].
  destruct (fold_max_spec l q) as [H1 [H2 H3]]. split; [|exact H3].
  intros v [<-|Hv]; [exact H1|apply H2; exact Hv].
Qed.

Lemma zero_rows_cells (data : DataFrame) (col : string) (c : column) :
  zero_rows data -> getitem data col = Ok c -> c = StrColumn [] \/ c = NumColumn [].
Proof.
  unfold getitem. intros Hz H.
  destruct (lookup data col) as [c'|] eqn:E; [|discriminate]. injection H as ->.
  pose proof (zero_rows_lookup data col c Hz E) as Hl.
  destruct c as [cells|cells]; simpl in Hl; apply map_eq_nil in Hl; subst; auto.
Qed.

(** X13.  With the default upper limit a table without rows is never
    plotted: the maximum of an empty column is NaN, which [set_ylim]
    refuses, so whatever the bar plot of pandas does the call does not
    return an axes. *)
Theorem empty_counts_never_plotted
        (capitalize : string -> string)
        (plot_bar : DataFrame -> string -> string -> bool -> option Axes -> string
                    -> outcome Axes)
        counts title x y xlabel ylabel label rotation title_fontsize legend ec ax res :
  zero_rows counts ->
  plot_counts_with_labels capitalize plot_bar counts title x y xlabel ylabel label
                          rotation title_fontsize legend ec None ax
  <> Return res.
Proof.
  intros Hz H. unfold plot_counts_with_labels in H.
  destruct (match x with None => first_column counts | Some x0 => Return x0 end)
    as [x0|e]; simpl in H; [|discriminate].
  destruct (getitem counts y) as [c|e] eqn:Ey; simpl in H; [|discriminate].
  assert (Hm : max_times c (115 # 100) = Return Float.NaN).
  { destruct (zero_rows_cells counts y c Hz Ey) as [-> | ->]; reflexivity. }
  rewrite Hm in H. simpl in H.
  destruct (plot_bar counts x0 y legend ax ec) as [ax0|e]; simpl in H; [|discriminate].
  destruct (getitem counts label) as [lc|e]; simpl in H; discriminate.
Qed.

Lemma empty_counts_never_plotted_witness :
  plot_counts_with_labels ascii_capitalize bars_per_row empty_table "" None "w" None
                          "Count" "g" 0 13 false "black" None None
  <> Return new_axes.
Proof.
  apply (empty_counts_never_plotted ascii_capitalize bars_per_row empty_table "" None "w"
           None "Count" "g" 0 13 false "black" None new_axes).
  repeat constructor.
Defined.

Lemma calc_ok_shape group data sort weight n p ft :
  calc_counts_and_percentages group data sort weight n p = Ok ft ->
  exists counts,
    ft = mkFrequencyTable [group; n; p] (table_rows counts)
    /\ group <> n /\ group <> p.
Proof.
  intro H. pose proof (calc_ok_names _ _ _ _ _ _ _ H) as Hn.
  apply orb_false_iff in Hn. destruct Hn as [Hn Hp].
  apply String.eqb_neq in Hn, Hp.
  destruct weight as [w|].
  - apply calc_weighted_inv in H. destruct H as [c [wc [counts [_ [_ [_ ->]]]]]].
    exists counts. auto.
  - apply calc_unweighted_inv in H. destruct H as [c [_ ->]].
    eexists. split; [reflexivity|auto].
Qed.

Lemma dropna_map_Some {A B} (f : A -> B) (l : list A) :
  dropna (map (fun a => Some (f a)) l) = map f l.
Proof.
  induction l as [|a l IH]; simpl; [reflexivity|]. rewrite IH. reflexivity.
Qed.

Lemma value_labels_of_rows (spacing size : Q) (weight : string) (rotation : option Q)
      (rs : list (key * Q * string)) (bars : list Rectangle) :
  map get_height bars = map row_count rs ->
  Forall2 (fun r a => ann_text a = PStr (row_percent r) /\ snd (ann_xy a) = row_count r)
          rs
          (map (value_label spacing size weight rotation)
               (combine bars (map (fun r => PStr (row_percent r)) rs))).
Proof.
  revert bars. induction rs as [|r rs IH]; intros [|b bars] H; simpl in *;
    try discriminate; constructor.
  - injection H as Hh _. split; [reflexivity|exact Hh].
  - apply IH. injection H as _ H. exact H.
Qed.

(** X15.  The two functions fit together with their defaults.  For a
    table the builder returned under the names "n" and "percent", with
    at least one row, if the bar plot of pandas draws on a fresh axes one
    bar per row with the count as height, then the chart is returned and
    carries one annotation per row, in row order: its text is the
    percentage of the row and it is anchored at the height of the
    count. *)
Theorem bars_carry_their_percentages
        (capitalize : string -> string)
        (plot_bar : DataFrame -> string -> string -> bool -> option Axes -> string
                    -> outcome Axes)
        group data sort weight ft title xlabel ylabel rotation title_fontsize legend ec
        ax0 :
  calc_counts_and_percentages group data sort weight "n" "percent" = Ok ft ->
  rows ft <> [] ->
  plot_bar (to_DataFrame ft) group "n" legend None ec = Return ax0 ->
  texts ax0 = [] ->
  map get_height (patches ax0) = map row_count (rows ft) ->
  exists ax,
    plot_counts_with_labels capitalize plot_bar (to_DataFrame ft) title None "n" xlabel
                            ylabel "percent" rotation title_fontsize legend ec None None
    = Return ax
    /\ Forall2 (fun r a => ann_text a = PStr (row_percent r)
                           /\ snd (ann_xy a) = row_count r)
               (rows ft) (texts ax).
Proof.
  intros H Hrows Hbar Htexts Hheights.
  apply calc_ok_shape in H. destruct H as [counts [-> [Hn Hp]]].
  simpl in Hrows, Hheights.
  unfold plot_counts_with_labels, to_DataFrame, getitem. simpl.
  apply String.eqb_neq in Hn, Hp. rewrite Hn, Hp. simpl.
  rewrite dropna_map_Some.
  pose proof (Qmax_list_spec (map row_count (table_rows counts))) as Hm.
  destruct (Qmax_list (map row_count (table_rows counts))) as [m| | |]; try contradiction.
  - simpl. unfold to_DataFrame in Hbar. simpl in Hbar. rewrite Hbar. simpl.
    rewrite add_value_labels_fold. simpl. rewrite Htexts. simpl.
    eexists. split; [reflexivity|]. simpl.
    rewrite map_map. apply value_labels_of_rows. exact Hheights.
  - apply map_eq_nil in Hm. contradiction.
Qed.

Lemma bars_carry_their_percentages_witness :
  exists ax,
    plot_counts_with_labels ascii_capitalize bars_per_row (to_DataFrame abb_counts) ""
                            None "n" None "Count" "percent" 0 13 false "black" None None
    = Return ax
    /\ Forall2 (fun r a => ann_text a = PStr (row_percent r)
                           /\ snd (ann_xy a) = row_count r)
               (rows abb_counts) (texts ax).
Proof.
  apply (bars_carry_their_percentages ascii_capitalize bars_per_row "g" abb_table
           (SortBool true) None abb_counts "" None "Count" 0 13 false "black"
           (mkAxes [mkRectangle (inject_Z 0 - (1 # 4)) (1 # 2) 3;
                    mkRectangle (inject_Z 1 - (1 # 4)) (1 # 2) 2]
                   [] None None None None)).
  - reflexivity.
  - discriminate.
  - reflexivity.
  - reflexivity.
  - reflexivity.
Defined.

(** ** The bar chart of a cross-tabulation *)

(** X16.  When only one of [x] and [y] is given, [data[None]] is looked
    up (or the named column is missing): the call raises KeyError
    whatever the table holds. *)
Theorem half_named_crosstab_raises
        (plot_bar : PlotFrame -> string -> option string -> Q -> option string
                    -> option string -> outcome Axes)
        data x y title xlabel ylabel normalize rot :
  is_some x <> is_some y ->
  exists name,
    plot_crosstab_as_barplot plot_bar data x y title xlabel ylabel normalize rot
    = Throw (Exn (KeyError name)).
Proof.
  intro H. unfold plot_crosstab_as_barplot.
  destruct x as [a|], y as [b|]; simpl in *; try congruence.
  - unfold getitem. destruct (lookup data a); simpl; eauto.
  - eauto.
Qed.

Lemma half_named_crosstab_raises_witness :
  exists name,
    plot_crosstab_as_barplot labels_only abb_table (Some "g") None None None None ANone 0
    = Throw (Exn (KeyError name)).
Proof.
  apply (half_named_crosstab_raises labels_only abb_table (Some "g") None None None None
           ANone 0).
  discriminate.
Defined.

(** X17.  A value of [normalize] that is none of the listed ones (and
    not None) normalizes nothing, yet the y-axis is labelled
    "Percentage" when no label is given: the counts themselves are
    plotted under that label. *)
Theorem unknown_normalize_plots_counts
        (plot_bar : PlotFrame -> string -> option string -> Q -> option string
                    -> option string -> outcome Axes)
        data x y title xlabel normalize rot :
  is_None normalize = false ->
  py_eq normalize (AStr "all") = false ->
  py_in normalize [AStr "row"; AStr "index"; AStr "x"; AInt 0] = false ->
  py_in normalize [AStr "column"; AStr "columns"; AStr "color"; AInt 1] = false ->
  (x = None -> y = None ->
   plot_crosstab_as_barplot plot_bar data x y title xlabel None normalize rot
   = plot_bar (frame_of (as_crosstab data)) "black" title rot xlabel (Some "Percentage"))
  /\ (forall a b ca cb,
        x = Some a -> y = Some b -> getitem data a = Ok ca -> getitem data b = Ok cb ->
        plot_crosstab_as_barplot plot_bar data x y title xlabel None normalize rot
        = plot_bar (frame_of (crosstab ca cb)) "black" title rot xlabel
                   (Some "Percentage")).
Proof.
  intros Hn Hall Hrow Hcol. unfold plot_crosstab_as_barplot. split.
  - intros -> ->. rewrite Hall, Hrow, Hcol, Hn. reflexivity.
  - intros a b ca cb -> -> Ha Hb. rewrite Hall, Hrow, Hcol, Hn.
    unfold getitem_opt. rewrite Ha, Hb. reflexivity.
Qed.

Lemma unknown_normalize_plots_counts_witness :
  plot_crosstab_as_barplot labels_only abb_table (Some "g") (Some "g") None None None
                           (AStr "rows") 0
  = labels_only (frame_of (crosstab (StrColumn [Some "a"; Some "a"; Some "b"; Some "b";
                                                Some "b"])
                                    (StrColumn [Some "a"; Some "a"; Some "b"; Some "b";
                                                Some "b"])))
                "black" None 0 None (Some "Percentage").
Proof.
  apply (proj2 (unknown_normalize_plots_counts labels_only abb_table (Some "g") (Some "g")
                  None None (AStr "rows") 0 eq_refl eq_refl eq_refl eq_refl)
               "g" "g"); reflexivity.
Defined.

(** X18.  A bool is compared with the ints of the lists: [normalize=False]
    is the normalization by rows and [normalize=True] the one by
    columns, not "no normalization". *)
Theorem bool_normalize_is_row_or_column
        (plot_bar : PlotFrame -> string -> option string -> Q -> option string
                    -> option string -> outcome Axes)
        data x y title xlabel ylabel rot :
  plot_crosstab_as_barplot plot_bar data x y title xlabel ylabel (ABool false) rot
  = plot_crosstab_as_barplot plot_bar data x y title xlabel ylabel (AStr "row") rot
  /\ plot_crosstab_as_barplot plot_bar data x y title xlabel ylabel (ABool true) rot
     = plot_crosstab_as_barplot plot_bar data x y title xlabel ylabel (AStr "column") rot.
Proof.
  split; reflexivity.
Qed.

Lemma percent_of_present (q s : Q) :
  ~ s == 0 -> percent_of (Some q) s = Float.Finite (q / s * 100).
Proof.
  intro H. apply raw_percentage_finite. exact H.
Qed.

Lemma nth_indexed {A B} (g : nat -> A -> B) (col : list A) (d : A) (d' : B) :
  forall i start, (i < List.length col)%nat ->
  nth i (map (fun ic => g (fst ic) (snd ic)) (combine (seq start (List.length col)) col)) d'
  = g (start + i)%nat (nth i col d).
Proof.
  induction col as [|a col IH]; intros i start Hi; simpl in *; [lia|].
  destruct i as [|i].
  - rewrite Nat.add_0_r. reflexivity.
  - rewrite IH by lia. f_equal. lia.
Qed.

Lemma nth_present {A} (col : list (option A)) (i : nat) (a : A) :
  nth i col None = Some a -> (i < List.length col)%nat.
Proof.
  intro H. destruct (Nat.lt_ge_cases i (List.length col)) as [Hlt|Hge]; [exact Hlt|].
  rewrite nth_overflow in H by exact Hge. discriminate.
Qed.

Lemma div_rows_row (cols : list (key * list (option Q))) (i : nat) :
  (forall kc, In kc cols -> exists q, nth i (snd kc) None = Some q) ->
  ~ row_sum cols i == 0 ->
  map (fun kc => nth i (snd kc) Float.NaN) (div_rows cols)
  = map Float.Finite
        (map (fun q => q / row_sum cols i * 100)
             (dropna (map (fun kc => nth i (snd kc) None) cols))).
Proof.
  intros Hpresent Hne.
  unfold div_rows. rewrite map_map. simpl.
  assert (Hgen : forall cols0,
             (forall kc, In kc cols0 -> exists q, nth i (snd kc) None = Some q) ->
             map (fun kc : key * list (option Q) =>
                    nth i (map (fun ic => percent_of (snd ic) (row_sum cols (fst ic)))
                               (combine (seq 0 (List.length (snd kc))) (snd kc)))
                        Float.NaN) cols0
             = map Float.Finite
                   (map (fun q => q / row_sum cols i * 100)
                        (dropna (map (fun kc => nth i (snd kc) None) cols0)))).
  { induction cols0 as [|kc cols0 IH]; intro Hp; [reflexivity|].
    destruct (Hp kc (or_introl eq_refl)) as [q Hq].
    cbn [map].
    rewrite (nth_indexed (fun j cell => percent_of cell (row_sum cols j)) (snd kc) None
                         Float.NaN i 0 (nth_present _ _ _ Hq)).
    rewrite Hq. cbn [dropna map Nat.add].
    rewrite (percent_of_present q _ Hne).
    rewrite IH by (intros kc' Hkc'; apply Hp; right; exact Hkc'). reflexivity. }
  apply Hgen. exact Hpresent.
Qed.

Lemma all_numbers_num (f : key -> list (option Q)) (l : list key) :
  all_numbers (map (fun c => (c, NumColumn (f c))) l) = Ok (map (fun c => (c, f c)) l).
Proof.
  induction l as [|c l IH]; simpl; [reflexivity|]. rewrite IH. reflexivity.
Qed.

Lemma nth_map_Some {A B} (h : A -> B) (l : list A) (d : A) (i : nat) :
  (i < List.length l)%nat ->
  nth i (map (fun r => Some (h r)) l) None = Some (h (nth i l d)).
Proof.
  revert i. induction l as [|a l IH]; intros [|i] Hi; simpl in *; try lia.
  - reflexivity.
  - apply IH. lia.
Qed.

Lemma list_sum_ge {A} (f : A -> nat) (l : list A) (a : A) :
  In a l -> (f a <= list_sum (map f l))%nat.
Proof.
  induction l as [|b l IH]; simpl; [tauto|].
  intros [->|H]; [lia|]. specialize (IH H). lia.
Qed.

Lemma row_normalize_args (normalize : pyarg) :
  py_in normalize [AStr "row"; AStr "index"; AStr "x"; AInt 0] = true ->
  py_eq normalize (AStr "all") = false /\ is_None normalize = false.
Proof.
  destruct normalize as [|s|z|b]; simpl; intro H; try discriminate; auto.
  split; [|reflexivity].
  destruct (String.eqb_spec s "all") as [->|_]; [discriminate|reflexivity].
Qed.

(** Every value of the index of a cross-tabulation occurs in a pair. *)
Lemma crosstab_row_counted (ps : list (key * key)) (r : key) :
  In r (sort_by key_leb (unique (map fst ps))) ->
  (1 <= list_sum (map (fun c => pair_count r c ps)
                      (sort_by key_leb (unique (map snd ps)))))%nat.
Proof.
  intro Hr.
  apply (Permutation_in _ (sort_by_perm key_leb _)) in Hr.
  apply (proj1 (In_unique _ _)) in Hr. apply in_map_iff in Hr.
  destruct Hr as [[r' c] [Hf Hp]]. simpl in Hf. subst r'.
  assert (Hc : In c (sort_by key_leb (unique (map snd ps)))).
  { apply (Permutation_in _ (Permutation_sym (sort_by_perm key_leb _))).
    apply In_unique. apply in_map_iff. exists (r, c). auto. }
  apply (Nat.le_trans _ (pair_count r c ps));
    [|exact (list_sum_ge (fun c' => pair_count r c' ps) _ c Hc)].
  unfold pair_count.
  assert (Hf : In (r, c) (filter (fun p => key_eqb r (fst p) && key_eqb c (snd p)) ps)).
  { apply filter_In. split; [exact Hp|]. simpl. rewrite !key_eqb_refl. reflexivity. }
  destruct (filter _ ps); [contradiction|simpl; lia].
Qed.

Lemma share_of_sum (l : list Q) (q : Q) :
  Forall (fun v => 0 <= v) l -> In q l -> 0 < Qsum l ->
  0 <= q / Qsum l * 100 /\ q / Qsum l * 100 <= 100.
Proof.
  intros Hnn Hin Hpos.
  destruct (Qsum_nonneg_bound l q Hnn Hin) as [_ Hle].
  assert (H0 : 0 <= q) by (rewrite Forall_forall in Hnn; apply Hnn; exact Hin).
  assert (Hlo : 0 <= q / Qsum l) by (apply Qle_shift_div_l; [exact Hpos|lra]).
  assert (Hhi : q / Qsum l <= 1) by (apply Qle_shift_div_r; [exact Hpos|lra]).
  split; lra.
Qed.

(** X22.  For a table with the two named columns, normalizing by rows
    ("row", "index", "x" or 0) never divides by zero: every row of the
    cross-tabulation counts at least one row of the table, and every
    cell of the plotted frame is a number between 0 and 100. *)
Theorem crosstab_rows_are_percentages
        (plot_bar : PlotFrame -> string -> option string -> Q -> option string
                    -> option string -> outcome Axes)
        data a b ca cb title xlabel ylabel normalize rot :
  getitem data a = Ok ca ->
  getitem data b = Ok cb ->
  py_in normalize [AStr "row"; AStr "index"; AStr "x"; AInt 0] = true ->
  exists counts,
    all_numbers (ct_columns (crosstab ca cb)) = Ok counts
    /\ plot_crosstab_as_barplot plot_bar data (Some a) (Some b) title xlabel ylabel
                                normalize rot
       = plot_bar (float_frame (ct_index (crosstab ca cb)) (div_rows counts)) "black" title
                  rot xlabel
                  (match ylabel with None => Some "Percentage" | Some l => Some l end)
    /\ forall i, (i < List.length (ct_index (crosstab ca cb)))%nat ->
       1 <= row_sum counts i
       /\ exists ps,
            map (fun kc => nth i (snd kc) Float.NaN) (div_rows counts) = map Float.Finite ps
            /\ Forall (fun q => 0 <= q /\ q <= 100) ps.
Proof.
  intros Ha Hb Hin.
  destruct (row_normalize_args normalize Hin) as [Hall Hnone].
  unfold plot_crosstab_as_barplot, getitem_opt. rewrite Hall, Hin, Hnone, Ha, Hb.
  cbn [is_some negb andb lift and_then].
  unfold crosstab.  cbn [ct_columns ct_index].
  set (ps := pairs_of ca cb).
  set (idx := sort_by key_leb (unique (map fst ps))).
  set (keys := sort_by key_leb (unique (map snd ps))).
  rewrite (all_numbers_num
             (fun c => map (fun r => Some (inject_Z (Z.of_nat (pair_count r c ps)))) idx)).
  cbn [lift and_then].
  set (cols := map (fun c => (c, map (fun r => Some (inject_Z (Z.of_nat (pair_count r c ps))))
                                     idx)) keys).
  exists cols. split; [reflexivity|]. split; [destruct ylabel; reflexivity|].
  intros i Hi.
  set (row := map (fun c => inject_Z (Z.of_nat (pair_count (nth i idx (KStr "")) c ps))) keys).
  assert (Hcells : dropna (map (fun kc => nth i (snd kc) None) cols) = row).
  { unfold cols, row. rewrite map_map. simpl.
    rewrite (map_ext _ (fun c => Some (inject_Z (Z.of_nat
                                 (pair_count (nth i idx (KStr "")) c ps)))))
      by (intro c;
          apply (nth_map_Some (fun r => inject_Z (Z.of_nat (pair_count r c ps)))
                              idx (KStr "") i Hi)).
    apply (dropna_map_Some
             (fun c => inject_Z (Z.of_nat (pair_count (nth i idx (KStr "")) c ps)))). }
  assert (Hsum : row_sum cols i = Qsum row) by (unfold row_sum; rewrite Hcells; reflexivity).
  assert (Hone : 1 <= Qsum row).
  { unfold row.
    rewrite (Qsum_of_nat (fun c => pair_count (nth i idx (KStr "")) c ps)).
    pose proof (crosstab_row_counted ps (nth i idx (KStr "")) (nth_In idx _ Hi)) as H1.
    change 1 with (inject_Z 1). rewrite <- Zle_Qle. unfold keys, idx in *. lia. }
  split; [rewrite Hsum; exact Hone|].
  exists (map (fun q => q / row_sum cols i * 100) row). split.
  - rewrite <- Hcells. apply div_rows_row.
    + intros kc Hkc. unfold cols in Hkc. apply in_map_iff in Hkc.
      destruct Hkc as [c [<- _]]. simpl.
      rewrite (nth_map_Some (fun r => inject_Z (Z.of_nat (pair_count r c ps)))
                            idx (KStr "") i Hi). eauto.
    + rewrite Hsum. lra.
  - rewrite Hsum. apply Forall_map, Forall_forall. intros q Hq.
    apply share_of_sum; [|exact Hq|lra].
    unfold row. apply Forall_map, Forall_forall. intros c _.
    change 0 with (inject_Z 0). rewrite <- Zle_Qle. lia.
Qed.

Lemma crosstab_rows_are_percentages_witness :
  exists counts,
    all_numbers (ct_columns (crosstab (StrColumn [Some "b"; Some "a"; Some "b"])
                                      (StrColumn [Some "b"; Some "a"; Some "b"])))
    = Ok counts
    /\ plot_crosstab_as_barplot labels_only bab_table (Some "g") (Some "g") None None None
                                (AStr "row") 0
       = labels_only (float_frame (ct_index (crosstab (StrColumn [Some "b"; Some "a"; Some "b"])
                                                      (StrColumn [Some "b"; Some "a"; Some "b"])))
                                  (div_rows counts))
                     "black" None 0 None (Some "Percentage")
    /\ forall i, (i < List.length
                        (ct_index (crosstab (StrColumn [Some "b"; Some "a"; Some "b"])
                                            (StrColumn [Some "b"; Some "a"; Some "b"]))))%nat ->
       1 <= row_sum counts i
       /\ exists ps,
            map (fun kc => nth i (snd kc) Float.NaN) (div_rows counts) = map Float.Finite ps
            /\ Forall (fun q => 0 <= q /\ q <= 100) ps.
Proof.
  apply (crosstab_rows_are_percentages labels_only bab_table "g" "g"
           (StrColumn [Some "b"; Some "a"; Some "b"])
           (StrColumn [Some "b"; Some "a"; Some "b"]) None None None (AStr "row") 0);
    reflexivity.
Defined.
